(** * Feature extraction from FASTQ files: [lib/platform_file_features.py]

    A shallow embedding of [get_file_features] and [get_directory_features]
    and the properties of the windowed record loop, of the accumulators, of
    the error paths and of the emitted rows.

    Conventions of the embedding.
    - A Python [int] is a [Z]; truthiness of an [int] is [<> 0].
    - A Python [float] is an abstract type [F]: its arithmetic, the helper
      functions imported from [platform_features], [statistics.stdev]'s
      numeric part and [scipy.stats.skew] are parameters of the development.
      An IEEE binary64 instance is given in [Module Binary64].
    - An exception is a value of [exn]; a computation that may raise returns
      a [result].
    - The record source ([SeqReader]) is a finite sequence of records that
      is consumed one record at a time and carries a [closed] flag.
    - The diagnostic output written under [debug] is write-only and has no
      influence on any result, it is left out. *)

From Stdlib Require Import ZArith List String Ascii Bool Lia DecimalString.
From Stdlib Require Floats Uint63.
Import ListNotations.
Open Scope Z_scope.

(** ** Exceptions and results *)

(** [HelperError] tags whatever the helpers of [platform_features] raise; the
    other constructors are raised by the language and by its library at the
    lines of this file. *)
Inductive exn (E : Type) : Type :=
| ZeroDivisionError
| ValueError
| StatisticsError
| IndexError
| HelperError (e : E).

Arguments ZeroDivisionError {E}.
Arguments ValueError {E}.
Arguments StatisticsError {E}.
Arguments IndexError {E}.
Arguments HelperError {E} e.

Inductive result (E A : Type) : Type :=
| Ok (a : A)
| Raise (e : exn E).

Arguments Ok {E A} a.
Arguments Raise {E A} e.

Definition bind {E A B} (m : result E A) (k : A -> result E B) : result E B :=
  match m with
  | Ok a => k a
  | Raise e => Raise e
  end.

Notation "x <- m ;; k" := (bind m (fun x => k))
  (at level 61, m at next level, right associativity).

Definition helper {E A} (r : E + A) : result E A :=
  match r with
  | inl e => Raise (HelperError e)
  | inr a => Ok a
  end.

Fixpoint mapM {E A B} (f : A -> result E B) (l : list A) : result E (list B) :=
  match l with
  | [] => Ok []
  | a :: l' => b <- f a ;; bs <- mapM f l' ;; Ok (b :: bs)
  end.

(** ** Data *)

(** A record of the source, as the 4-tuple the loop unpacks:
    [_, read, qual, _ = record]. *)
Definition record : Type := string * string * string * string.

Definition len (s : string) : Z := Z.of_nat (String.length s).

Definition read_of (rec : record) : string := let '(_, read, _, _) := rec in read.
Definition qual_of (rec : record) : string := let '(_, _, qual, _) := rec in qual.

(** The dictionaries keyed by ["avg_avg_phred"], ["avg_min_phred"] and
    ["avg_max_phred"], in that (insertion) order. *)
Record phred_dict (A : Type) : Type := mk_phred {
  avg_avg_phred : A;
  avg_min_phred : A;
  avg_max_phred : A
}.

Arguments mk_phred {A}.
Arguments avg_avg_phred {A}.
Arguments avg_min_phred {A}.
Arguments avg_max_phred {A}.

(** The reading resource. *)
Record SeqReader : Type := mk_reader {
  pending : list record;
  consumed : nat;
  closed : bool
}.

Definition SeqReader_open (fastq_input : list record) : SeqReader :=
  {| pending := fastq_input; consumed := 0%nat; closed := false |}.

Definition SeqReader_close (reader : SeqReader) : SeqReader :=
  {| pending := pending reader; consumed := consumed reader; closed := true |}.

(** The integer statistics of [lengths]. *)
Definition sum (l : list Z) : Z := fold_left Z.add l 0.

Fixpoint insert_sorted (z : Z) (l : list Z) : list Z :=
  match l with
  | [] => [z]
  | h :: t => if z <=? h then z :: l else h :: insert_sorted z t
  end.

Definition sorted (l : list Z) : list Z := fold_right insert_sorted [] l.

(** ** Strings of the aggregator *)

Fixpoint endswith (s suffix : string) : bool :=
  (s =? suffix)%string ||
  match s with
  | EmptyString => false
  | String _ s' => endswith s' suffix
  end.

Fixpoint split (sep : ascii) (s : string) : list string :=
  match s with
  | EmptyString => [EmptyString]
  | String c s' =>
      if Ascii.eqb c sep then EmptyString :: split sep s'
      else match split sep s' with
           | h :: t => String c h :: t
           | [] => [String c EmptyString]
           end
  end.

Fixpoint join (sep : string) (l : list string) : string :=
  match l with
  | [] => EmptyString
  | [s] => s
  | s :: l' => (s ++ sep ++ join sep l')%string
  end.

Definition tab : string := String (ascii_of_nat 9) EmptyString.
Definition newline : string := String (ascii_of_nat 10) EmptyString.
Definition dot : ascii := "."%char.

Definition HEADER : list string :=
  [ "avg_length"; "min_length"; "max_length"; "median_length";
    "stddev_length"; "skew_length";
    "avg_avg_phred"; "avg_min_phred"; "avg_max_phred" ]%string.

Definition str_int (z : Z) : string := NilZero.string_of_int (Z.to_int z).

(** ** The program *)

(** What the program takes from the language and from the modules it
    imports. *)
Class Runtime : Type := {
  (** Python's [float] with the operations the program applies to it. *)
  F : Type;
  float_of_int : Z -> F;
  fmul : F -> F -> F;
  fdiv : F -> F -> F;
  flt : F -> F -> bool;
  (** [sum] over a list of floats, and [int / int]. *)
  float_sum : list F -> F;
  int_truediv : Z -> Z -> F;
  (** The helpers imported from [platform_features], which may raise. *)
  E : Type;
  get_offset : string -> E + Z;
  transform_phred_to_prob : ascii -> Z -> E + F;
  (** The numeric part of [statistics.stdev] on at least two data points,
      and [scipy.stats.skew]. *)
  stdev_float : list Z -> F;
  skew : list Z -> F;
  (** [str] of a [float] and of a NumPy float. *)
  str_float : F -> string;
  str_np : F -> string
}.

Section PlatformFileFeatures.

Context {RT : Runtime}.

Local Abbreviation res := (result E).

(** An element of the list [features]. *)
Inductive value : Type :=
| Int (z : Z)
| Float (f : F)
| NpFloat (f : F)
| Str (s : string).

Definition str (v : value) : string :=
  match v with
  | Int z => str_int z
  | Float f => str_float f
  | NpFloat f => str_np f
  | Str s => s
  end.

(** *** Built-ins and library functions, with the exceptions they raise *)

Definition truediv (a : F) (n : Z) : res F :=
  if n =? 0 then Raise ZeroDivisionError else Ok (fdiv a (float_of_int n)).

Definition int_div (a n : Z) : res F :=
  if n =? 0 then Raise ZeroDivisionError else Ok (int_truediv a n).

Definition min_float (l : list F) : res F :=
  match l with
  | [] => Raise ValueError
  | h :: t => Ok (fold_left (fun m v => if flt v m then v else m) t h)
  end.

Definition max_float (l : list F) : res F :=
  match l with
  | [] => Raise ValueError
  | h :: t => Ok (fold_left (fun m v => if flt m v then v else m) t h)
  end.

Definition min_int (l : list Z) : res Z :=
  match l with
  | [] => Raise ValueError
  | h :: t => Ok (fold_left Z.min t h)
  end.

Definition max_int (l : list Z) : res Z :=
  match l with
  | [] => Raise ValueError
  | h :: t => Ok (fold_left Z.max t h)
  end.

(** [statistics.median]: the middle value, or the mean of the two middle
    values. *)
Definition median (data : list Z) : res value :=
  let data := sorted data in
  let n := List.length data in
  if (n =? 0)%nat then Raise StatisticsError
  else if (n mod 2 =? 1)%nat then Ok (Int (nth (n / 2) data 0))
  else
    let i := (n / 2)%nat in
    Ok (Float (int_truediv (nth (i - 1) data 0 + nth i data 0) 2)).

(** [statistics.stdev]: refuses fewer than two data points. *)
Definition stdev (data : list Z) : res F :=
  if (List.length data <? 2)%nat then Raise StatisticsError
  else Ok (stdev_float data).

Definition index {A} (l : list A) (i : nat) : res A :=
  match nth_error l i with
  | Some a => Ok a
  | None => Raise IndexError
  end.

(** *** [get_file_features] *)

Definition get_qual_features (offset : Z) (qual_ascii : string)
  : res (phred_dict F) :=
  seq_qual_prob <-
    mapM (fun x =>
            p <- helper (transform_phred_to_prob x offset) ;;
            Ok (fmul p (float_of_int 100)))
         (list_ascii_of_string qual_ascii) ;;
  avg <- truediv (float_sum seq_qual_prob) (Z.of_nat (List.length seq_qual_prob)) ;;
  lo <- min_float seq_qual_prob ;;
  hi <- max_float seq_qual_prob ;;
  Ok (mk_phred avg lo hi).

(** The variables the loop updates. *)
Record locals : Type := mk_locals {
  position : Z;
  count : Z;
  offset : Z;
  lengths : list Z;
  qual_array : phred_dict (list F)
}.

Definition initial : locals :=
  {| position := 0; count := 0; offset := 0; lengths := [];
     qual_array := mk_phred [] [] [] |}.

Definition set_position (st : locals) (p : Z) : locals :=
  {| position := p; count := count st; offset := offset st;
     lengths := lengths st; qual_array := qual_array st |}.

Definition append_features (qa : phred_dict (list F)) (qf : phred_dict F)
  : phred_dict (list F) :=
  mk_phred (avg_avg_phred qa ++ [avg_avg_phred qf])
           (avg_min_phred qa ++ [avg_min_phred qf])
           (avg_max_phred qa ++ [avg_max_phred qf]).

(** How one iteration of [for record in reader] ends. *)
Inductive flow : Type :=
| Next (st : locals)
| Break (st : locals)
| Abort (e : exn E).

(** [if not offset: offset = get_offset(qual)] *)
Definition sticky_offset (current : Z) (qual : string) : res Z :=
  if current =? 0 then helper (get_offset qual) else Ok current.

Definition loop_body (x y : Z) (st : locals) (rec : record) : flow :=
  let '(_, read, qual, _) := rec in
  let position := position st + 1 in
  if y <? position then Break (set_position st position)
  else if (len qual =? 0) || (position <? x) then Next (set_position st position)
  else
    let count := count st + 1 in
    let lengths := lengths st ++ [len read] in
    match sticky_offset (offset st) qual with
    | Raise e => Abort e
    | Ok offset =>
        match get_qual_features offset qual with
        | Raise e => Abort e
        | Ok qual_features =>
            Next {| position := position; count := count; offset := offset;
                    lengths := lengths;
                    qual_array := append_features (qual_array st) qual_features |}
        end
    end.

(** The loop over the records still pending in the reader; [k] counts the
    records taken from it. *)
Fixpoint for_loop (x y : Z) (recs : list record) (k : nat) (st : locals)
  : res locals * SeqReader :=
  match recs with
  | [] => (Ok st, mk_reader [] k false)
  | rec :: rest =>
      match loop_body x y st rec with
      | Next st' => for_loop x y rest (S k) st'
      | Break st' => (Ok st', mk_reader rest (S k) false)
      | Abort e => (Raise e, mk_reader rest (S k) false)
      end
  end.

(** [if x and y and y < x: x, y = y, x] *)
Definition normalize (positions : Z * Z) : Z * Z :=
  let (x, y) := positions in
  if negb (x =? 0) && negb (y =? 0) && (y <? x) then (y, x) else (x, y).

Definition mean_of (l : list F) : res F :=
  truediv (float_sum l) (Z.of_nat (List.length l)).

Definition qual_avgs_of (qa : phred_dict (list F)) : res (phred_dict F) :=
  a <- mean_of (avg_avg_phred qa) ;;
  b <- mean_of (avg_min_phred qa) ;;
  c <- mean_of (avg_max_phred qa) ;;
  Ok (mk_phred a b c).

Definition feature_vector (lengths : list Z) (qual_avgs : phred_dict F)
  : res (list value) :=
  avg_length <- int_div (sum lengths) (Z.of_nat (List.length lengths)) ;;
  min_length <- min_int lengths ;;
  max_length <- max_int lengths ;;
  median_length <- median lengths ;;
  stddev_length <- stdev lengths ;;
  Ok [ Float avg_length; Int min_length; Int max_length; median_length;
       Float stddev_length; NpFloat (skew lengths);
       Float (avg_avg_phred qual_avgs);
       Float (avg_min_phred qual_avgs);
       Float (avg_max_phred qual_avgs) ].

(** The function returns its result, or the exception it raises, together
    with the reader as it leaves it. *)
Definition get_file_features (fastq_input : list record) (positions : Z * Z)
  : res (list value * Z) * SeqReader :=
  let reader := SeqReader_open fastq_input in
  let (x, y) := normalize positions in
  let (looped, reader) := for_loop x y (pending reader) (consumed reader) initial in
  match looped with
  | Raise e => (Raise e, reader)
  | Ok st =>
      match qual_avgs_of (qual_array st) with
      | Raise e => (Raise e, reader)
      | Ok qual_avgs =>
          let reader := SeqReader_close reader in
          (features <- feature_vector (lengths st) qual_avgs ;;
           Ok (features, count st), reader)
      end
  end.

(** What follows the loop, as a function of the final state. *)
Definition summarize (st : locals) : res (list value * Z) :=
  qual_avgs <- qual_avgs_of (qual_array st) ;;
  features <- feature_vector (lengths st) qual_avgs ;;
  Ok (features, count st).

(** *** [get_directory_features] *)

(** A directory is its listing: each name with the records of that file. *)
Definition directory : Type := list (string * list record).

Definition write (output s : string) : string := (output ++ s)%string.

Fixpoint listing_loop (entries : directory) (positions : Z * Z)
    (output : string) (count : Z) : res Z * string :=
  match entries with
  | [] => (Ok count, output)
  | (filename, fastq_input) :: rest =>
      if endswith filename ".fastq" then
        match fst (get_file_features fastq_input positions) with
        | Raise e => (Raise e, output)
        | Ok (features, _) =>
            let labels := split dot filename in
            match index labels 1 with
            | Raise e => (Raise e, output)
            | Ok platform =>
                match index labels 0 with
                | Raise e => (Raise e, output)
                | Ok accession =>
                    let features := features ++ [Str platform] ++ [Str accession] in
                    listing_loop rest positions
                      (write output (join tab (map str features) ++ newline))
                      (count + 1)
                end
            end
        end
      else listing_loop rest positions output count
  end.

Definition get_directory_features (dir : directory) (positions : Z * Z)
    (header : bool) (output : string) (srr : bool) : res Z * string :=
  let output :=
    if header then write output (join tab HEADER ++ tab ++ "label") else output in
  let output :=
    if srr && header then write output (tab ++ "accession_number") else output in
  let output := if header then write output newline else output in
  listing_loop dir positions output 0.

(** ** Specification-level notions *)

(** The contributing records of a file under the window the loop applies:
    the records whose 1-based position is at most [y] and at least [x] and
    whose quality string is not empty.  [p] is the number of records before
    [recs]. *)
Fixpoint in_window (x y p : Z) (recs : list record) : list record :=
  match recs with
  | [] => []
  | rec :: rest =>
      let p := p + 1 in
      if (p <=? y) && negb (len (qual_of rec) =? 0) && (x <=? p)
      then rec :: in_window x y p rest
      else in_window x y p rest
  end.

Definition contributing (positions : Z * Z) (recs : list record) : list record :=
  let (x, y) := normalize positions in in_window x y 0 recs.

(** Following the words of the specification for an end bound of 0 (no
    upper limit): the records at or after the start bound [x] whose quality
    string is not empty.  [p] is the number of records before [recs]. *)
Fixpoint to_end_of_file (x p : Z) (recs : list record) : list record :=
  match recs with
  | [] => []
  | rec :: rest =>
      let p := p + 1 in
      if negb (len (qual_of rec) =? 0) && (x <=? p)
      then rec :: to_end_of_file x p rest
      else to_end_of_file x p rest
  end.

(** What the loop does with one contributing record, and with a sequence
    of them. *)
Definition absorb (st : locals) (rec : record) : res locals :=
  offset <- sticky_offset (offset st) (qual_of rec) ;;
  qual_features <- get_qual_features offset (qual_of rec) ;;
  Ok {| position := position st; count := count st + 1; offset := offset;
        lengths := lengths st ++ [len (read_of rec)];
        qual_array := append_features (qual_array st) qual_features |}.

Fixpoint absorb_all (st : locals) (recs : list record) : res locals :=
  match recs with
  | [] => Ok st
  | rec :: rest => st' <- absorb st rec ;; absorb_all st' rest
  end.

(** The accumulators of a state, without the position counter. *)
Definition accs (st : locals) : Z * Z * list Z * phred_dict (list F) :=
  (count st, offset st, lengths st, qual_array st).

Definition map_result {A B} (f : A -> B) (r : res A) : res B :=
  match r with
  | Ok a => Ok (f a)
  | Raise e => Raise e
  end.

(** The states of the loop after each record it processed. *)
Fixpoint trace (x y : Z) (recs : list record) (st : locals) : list locals :=
  match recs with
  | [] => []
  | rec :: rest =>
      match loop_body x y st rec with
      | Next st' => st' :: trace x y rest st'
      | Break st' => [st']
      | Abort _ => []
      end
  end.

(** The count of contributing reads agrees with every accumulator. *)
Definition consistent (st : locals) : Prop :=
  count st = Z.of_nat (List.length (lengths st)) /\
  List.length (avg_avg_phred (qual_array st)) = List.length (lengths st) /\
  List.length (avg_min_phred (qual_array st)) = List.length (lengths st) /\
  List.length (avg_max_phred (qual_array st)) = List.length (lengths st).

(** The accumulators after decoding the reads [recs] with one offset. *)
Definition decoded_with (o : Z) (recs : list record) : res locals :=
  qfs <- mapM (fun rec => get_qual_features o (qual_of rec)) recs ;;
  Ok {| position := 0; count := Z.of_nat (List.length recs); offset := o;
        lengths := map (fun rec => len (read_of rec)) recs;
        qual_array := mk_phred (map avg_avg_phred qfs)
                               (map avg_min_phred qfs)
                               (map avg_max_phred qfs) |}.

(** An entry of the listing the aggregator gets past: a name without the
    extension, or a file whose extraction returns. *)
Definition extracts (positions : Z * Z) (entry : string * list record) : bool :=
  negb (endswith (fst entry) ".fastq") ||
  match fst (get_file_features (snd entry) positions) with
  | Ok _ => true
  | Raise _ => false
  end.

(** The entries the aggregator processes, the row it writes for one of
    them, and the header text. *)
Definition is_fastq (entry : string * list record) : bool :=
  endswith (fst entry) ".fastq".

Definition row (positions : Z * Z) (entry : string * list record) : string :=
  match fst (get_file_features (snd entry) positions) with
  | Ok (features, _) =>
      let labels := split dot (fst entry) in
      (join tab (map str (features ++
                          [Str (nth 1 labels EmptyString);
                           Str (nth 0 labels EmptyString)])) ++ newline)%string
  | Raise _ => EmptyString
  end.

Definition header_text (header srr : bool) : string :=
  if header then
    (join tab (HEADER ++ "label"%string ::
               (if srr then ["accession_number"%string] else [])) ++ newline)%string
  else EmptyString.

(** A field of a file name: a string without the separator. *)
Definition dotless (s : string) : bool :=
  forallb (fun c => negb (Ascii.eqb c dot)) (list_ascii_of_string s).

(** A state continued by the accumulators of another. *)
Definition extend (st d : locals) : locals :=
  {| position := position st; count := count st + count d; offset := offset st;
     lengths := lengths st ++ lengths d;
     qual_array :=
       mk_phred (avg_avg_phred (qual_array st) ++ avg_avg_phred (qual_array d))
                (avg_min_phred (qual_array st) ++ avg_min_phred (qual_array d))
                (avg_max_phred (qual_array st) ++ avg_max_phred (qual_array d)) |}.

End PlatformFileFeatures.

(** ** Sample files *)

Definition two_reads : list record :=
  [ ("@r1", "ACGTACGT", "5555IIII", "+");
    ("@r2", "ACGTAC", "II5#II", "+") ]%string.

(** The second read alone would be given the offset 64. *)
Definition mixed_reads : list record :=
  [ ("@r1", "ACGT", "5555", "+");
    ("@r2", "ACGTAC", "hhhhhh", "+") ]%string.

Definition three_reads : list record :=
  [ ("@r1", "ACGTACGT", "IIIIHHHH", "+");
    ("@r2", "ACGT", "", "+");
    ("@r3", "ACGTACGTAC", "hhhhhhhhhh", "+") ]%string.

(** The first read is given the offset 64, under which the second has
    negative scores. *)
Definition misdecoded_reads : list record :=
  [ ("@r1", "ACGT", "hhhh", "+");
    ("@r2", "ACGTAC", "555555", "+") ]%string.

(** A single read whose quality string fits no standard offset (it holds
    a space, of ordinal 32). *)
Definition undecodable_read : list record :=
  [ ("@r1", "ACGT", " !!!", "+") ]%string.

(** Two records without quality. *)
Definition unscored_reads : list record :=
  [ ("@r1", "ACGT", "", "+"); ("@r2", "ACG", "", "+") ]%string.

(** A listing of two files to process and one other file, and a file whose
    extraction fails. *)
Definition sample_listing : list (string * list record) :=
  [ ("SRR111.illumina.fastq"%string, two_reads);
    ("notes.txt"%string, []);
    ("SRR222.pacbio.fastq"%string, three_reads) ].

Definition failing_entry : string * list record :=
  ("SRR333.mixed.fastq"%string, misdecoded_reads).

(** ** An instance: IEEE binary64 floats *)

Module Binary64.

Definition float : Type := PrimFloat.float.

Definition of_Z (z : Z) : float :=
  if z <? 0 then PrimFloat.opp (PrimFloat.of_uint63 (Uint63.of_Z (- z)))
  else PrimFloat.of_uint63 (Uint63.of_Z z).

Definition fsum (l : list float) : float := fold_left PrimFloat.add l (of_Z 0).

Definition ten_to_minus_tenths : list Z :=
  [ 10000000000000000; 7943282347242815; 6309573444801932; 5011872336272722;
    3981071705534972; 3162277660168379; 2511886431509580; 1995262314968880;
    1584893192461113; 1258925411794167 ].

Fixpoint shrink (n : nat) (f : float) : float :=
  match n with
  | O => f
  | S n' => shrink n' (PrimFloat.div f (of_Z 10))
  end.

(** Modelled from the spec: [platform_features] is not among the sources.
    The Phred score is the character's ordinal minus the offset, the error
    probability is ten to the power of minus a tenth of the score, and a
    negative score is an error. *)
Definition to_error_probability (c : ascii) (offset : Z) : string + float :=
  let score := Z.of_nat (nat_of_ascii c) - offset in
  if score <? 0 then inl "negative Phred score"%string
  else
    let tenth := nth (Z.to_nat (score mod 10)) ten_to_minus_tenths 0 in
    inr (shrink (Z.to_nat (score / 10))
                (PrimFloat.div (of_Z tenth) (of_Z (10 ^ 16)))).

Definition ordinals (s : string) : list Z :=
  map (fun c => Z.of_nat (nat_of_ascii c)) (list_ascii_of_string s).

(** Modelled from the spec: [platform_features] is not among the sources.
    The offset is the standard one (33 or 64) consistent with the ordinals
    of the quality string; a string no standard offset fits is an error. *)
Definition infer_offset (qual : string) : string + Z :=
  let os := ordinals qual in
  if existsb (fun o => o <? 33) os then inl "no standard offset"%string
  else if existsb (fun o => o <? 64) os then inr 33
  else inr 64.

Definition deviations (data : list Z) : list float :=
  let mean := PrimFloat.div (of_Z (sum data)) (of_Z (Z.of_nat (List.length data))) in
  map (fun z => PrimFloat.sub (of_Z z) mean) data.

Definition sample_stdev (data : list Z) : float :=
  let squares := map (fun d => PrimFloat.mul d d) (deviations data) in
  PrimFloat.sqrt
    (PrimFloat.div (fsum squares) (of_Z (Z.of_nat (List.length data) - 1))).

Definition skewness (data : list Z) : float :=
  let n := of_Z (Z.of_nat (List.length data)) in
  let ds := deviations data in
  let m2 := PrimFloat.div (fsum (map (fun d => PrimFloat.mul d d) ds)) n in
  let m3 :=
    PrimFloat.div (fsum (map (fun d => PrimFloat.mul d (PrimFloat.mul d d)) ds)) n in
  PrimFloat.div m3 (PrimFloat.mul m2 (PrimFloat.sqrt m2)).

(** An exact rendering of a float: sign, integer mantissa and binary
    exponent.  It stands for [str], whose shortest decimal rendering is not
    reproduced. *)
Definition render (f : float) : string :=
  match FloatOps.Prim2SF f with
  | SpecFloat.S754_zero s => if s then "-0.0" else "0.0"
  | SpecFloat.S754_infinity s => if s then "-inf" else "inf"
  | SpecFloat.S754_nan => "nan"
  | SpecFloat.S754_finite s m e =>
      ((if s then "-" else "") ++ str_int (Z.pos m) ++ "p" ++ str_int e)%string
  end.

#[export] Instance runtime : Runtime := {|
  F := float;
  float_of_int := of_Z;
  fmul := PrimFloat.mul;
  fdiv := PrimFloat.div;
  flt := PrimFloat.ltb;
  float_sum := fsum;
  int_truediv := fun a b => PrimFloat.div (of_Z a) (of_Z b);
  E := string;
  get_offset := infer_offset;
  transform_phred_to_prob := to_error_probability;
  stdev_float := sample_stdev;
  skew := skewness;
  str_float := render;
  str_np := render
|}.

End Binary64.

(** ** Properties *)

Section Properties.

Context {RT : Runtime}.

Local Abbreviation res := (result E).

(** *** The loop body and the window *)

Lemma loop_body_cases (x y : Z) (st : locals) (rec : record) :
  loop_body x y st rec =
  let p := position st + 1 in
  if y <? p then Break (set_position st p)
  else if (len (qual_of rec) =? 0) || (p <? x) then Next (set_position st p)
  else match absorb (set_position st p) rec with
       | Ok st' => Next st'
       | Raise e => Abort e
       end.
Proof.
  destruct rec as [[[ident read] qual] aux].
  unfold loop_body, absorb, qual_of, read_of; cbn zeta.
  destruct (y <? position st + 1); [reflexivity|].
  destruct ((len qual =? 0) || (position st + 1 <? x)); [reflexivity|].
  cbn [offset set_position].
  destruct (sticky_offset (offset st) qual) as [o|e]; cbn [bind]; [|reflexivity].
  destruct (get_qual_features o qual); reflexivity.
Qed.

Lemma in_window_beyond (x y : Z) (recs : list record) :
  forall p, y <= p -> in_window x y p recs = [].
Proof.
  induction recs as [|rec rest IH]; intros p Hp; [reflexivity|].
  cbn [in_window]; cbn zeta.
  replace (p + 1 <=? y) with false by (symmetry; apply Z.leb_gt; lia).
  cbn [andb]. apply IH. lia.
Qed.

Lemma accs_set_position (st : locals) (p : Z) : accs (set_position st p) = accs st.
Proof. reflexivity. Qed.

Lemma absorb_set_position (st : locals) (p : Z) (rec : record) :
  absorb (set_position st p) rec =
  map_result (fun s => set_position s p) (absorb st rec).
Proof.
  unfold absorb; cbn [offset set_position].
  destruct (sticky_offset (offset st) (qual_of rec)) as [o|e]; cbn [bind map_result];
    [|reflexivity].
  destruct (get_qual_features o (qual_of rec)); reflexivity.
Qed.

Lemma absorb_all_set_position (recs : list record) :
  forall st p,
    absorb_all (set_position st p) recs =
    map_result (fun s => set_position s p) (absorb_all st recs).
Proof.
  induction recs as [|rec rest IH]; intros st p; [reflexivity|].
  cbn [absorb_all]. rewrite absorb_set_position.
  destruct (absorb st rec) as [st'|e]; cbn [bind map_result]; [|reflexivity].
  apply IH.
Qed.

Lemma map_result_accs_set_position (r : res locals) (p : Z) :
  map_result accs (map_result (fun s => set_position s p) r) = map_result accs r.
Proof. destruct r; reflexivity. Qed.

(** The loop accumulates exactly the records of the window, in order: the
    early exit at the end bound loses none of them. *)
Lemma for_loop_in_window (x y : Z) (recs : list record) :
  forall k st,
    map_result accs (fst (for_loop x y recs k st)) =
    map_result accs (absorb_all st (in_window x y (position st) recs)).
Proof.
  induction recs as [|rec rest IH]; intros k st; [reflexivity|].
  cbn [for_loop in_window]. rewrite loop_body_cases. cbn zeta.
  destruct (y <? position st + 1) eqn:Hend.
  - apply Z.ltb_lt in Hend.
    replace (position st + 1 <=? y) with false by (symmetry; apply Z.leb_gt; lia).
    cbn [andb]. rewrite in_window_beyond by lia. reflexivity.
  - apply Z.ltb_ge in Hend.
    replace (position st + 1 <=? y) with true by (symmetry; apply Z.leb_le; lia).
    cbn [andb].
    destruct (len (qual_of rec) =? 0) eqn:Hq; cbn [orb negb andb].
    + rewrite IH. cbn [position set_position].
      rewrite absorb_all_set_position. apply map_result_accs_set_position.
    + rewrite Z.leb_antisym.
      destruct (position st + 1 <? x) eqn:Hx; cbn [negb].
      * rewrite IH. cbn [position set_position].
        rewrite absorb_all_set_position. apply map_result_accs_set_position.
      * cbn [absorb_all]. rewrite absorb_set_position.
        destruct (absorb st rec) as [st'|e] eqn:Hab; cbn [map_result bind];
          [|reflexivity].
        rewrite IH. cbn [position set_position].
        rewrite absorb_all_set_position. apply map_result_accs_set_position.
Qed.


Lemma for_loop_reader (x y : Z) (recs : list record) :
  forall k st,
    closed (snd (for_loop x y recs k st)) = false /\
    (k <= consumed (snd (for_loop x y recs k st)))%nat.
Proof.
  induction recs as [|rec rest IH]; intros k st; cbn [for_loop].
  - cbn. split; [reflexivity | lia].
  - destruct (loop_body x y st rec).
    + destruct (IH (S k) st0) as [Hc Hk]. split; [exact Hc | lia].
    + cbn. split; [reflexivity | lia].
    + cbn. split; [reflexivity | lia].
Qed.

Lemma last_cons {A} (l : list A) :
  forall a d, last (a :: l) d = last l a.
Proof.
  induction l as [|b l IH]; intros a d; [reflexivity|].
  change (last (a :: b :: l) d) with (last (b :: l) d).
  rewrite !IH. reflexivity.
Qed.

Lemma for_loop_last_trace (x y : Z) (recs : list record) :
  forall k st st',
    fst (for_loop x y recs k st) = Ok st' -> st' = last (trace x y recs st) st.
Proof.
  induction recs as [|rec rest IH]; intros k st st'; cbn [for_loop trace].
  - cbn. intros H; injection H as <-; reflexivity.
  - destruct (loop_body x y st rec) as [st1|st1|e].
    + intros H. apply IH in H. rewrite H. symmetry. apply last_cons.
    + cbn. intros H; injection H as <-; reflexivity.
    + cbn. discriminate.
Qed.

(** *** The count and the accumulators *)

Lemma consistent_initial : consistent initial.
Proof. repeat split. Qed.

Lemma consistent_set_position (st : locals) (p : Z) :
  consistent st -> consistent (set_position st p).
Proof. intros H; exact H. Qed.

Lemma absorb_consistent (st st' : locals) (rec : record) :
  consistent st -> absorb st rec = Ok st' -> consistent st'.
Proof.
  intros (Hc & Ha & Hm & Hx). unfold absorb.
  destruct (sticky_offset (offset st) (qual_of rec)) as [o|e]; cbn [bind]; [|discriminate].
  destruct (get_qual_features o (qual_of rec)) as [qf|e]; cbn [bind]; [|discriminate].
  intros H; injection H as <-.
  unfold consistent; cbn [count lengths qual_array append_features
                          avg_avg_phred avg_min_phred avg_max_phred].
  rewrite !length_app; cbn [List.length].
  repeat split; lia.
Qed.

Lemma loop_body_consistent (x y : Z) (st : locals) (rec : record) :
  consistent st ->
  match loop_body x y st rec with
  | Next st' | Break st' => consistent st'
  | Abort _ => True
  end.
Proof.
  intros H. rewrite loop_body_cases. cbn zeta.
  destruct (y <? position st + 1); [exact H|].
  destruct ((len (qual_of rec) =? 0) || (position st + 1 <? x)); [exact H|].
  destruct (absorb (set_position st (position st + 1)) rec) as [st'|e] eqn:Hab;
    [|exact I].
  apply (absorb_consistent _ _ _ (consistent_set_position _ _ H) Hab).
Qed.

Lemma trace_consistent (x y : Z) (recs : list record) :
  forall st, consistent st -> Forall consistent (trace x y recs st).
Proof.
  induction recs as [|rec rest IH]; intros st H; cbn [trace]; [constructor|].
  pose proof (loop_body_consistent x y st rec H) as Hb.
  destruct (loop_body x y st rec) as [st'|st'|e].
  - constructor; [exact Hb | apply IH; exact Hb].
  - constructor; [exact Hb | constructor].
  - constructor.
Qed.

Lemma for_loop_consistent (x y : Z) (recs : list record) :
  forall k st st',
    consistent st -> fst (for_loop x y recs k st) = Ok st' -> consistent st'.
Proof.
  induction recs as [|rec rest IH]; intros k st st' H; cbn [for_loop].
  - cbn. intros E0; injection E0 as <-; exact H.
  - pose proof (loop_body_consistent x y st rec H) as Hb.
    destruct (loop_body x y st rec) as [st1|st1|e].
    + apply IH; exact Hb.
    + cbn. intros E0; injection E0 as <-; exact Hb.
    + cbn. discriminate.
Qed.

(** *** The function in terms of its loop *)

Lemma get_file_features_unfold (recs : list record) (positions : Z * Z) :
  get_file_features recs positions =
  let (x, y) := normalize positions in
  let rd := snd (for_loop x y recs 0 initial) in
  match fst (for_loop x y recs 0 initial) with
  | Raise e => (Raise e, rd)
  | Ok st =>
      match qual_avgs_of (qual_array st) with
      | Raise e => (Raise e, rd)
      | Ok qual_avgs =>
          (features <- feature_vector (lengths st) qual_avgs ;;
           Ok (features, count st), SeqReader_close rd)
      end
  end.
Proof.
  unfold get_file_features. destruct (normalize positions) as [x y].
  cbn [SeqReader_open pending consumed].
  destruct (for_loop x y recs 0 initial) as [[st|e] rd]; reflexivity.
Qed.

Lemma get_file_features_fst (recs : list record) (positions : Z * Z) :
  fst (get_file_features recs positions) =
  let (x, y) := normalize positions in
  st <- fst (for_loop x y recs 0 initial) ;; summarize st.
Proof.
  rewrite get_file_features_unfold. destruct (normalize positions) as [x y].
  cbn zeta. destruct (fst (for_loop x y recs 0 initial)) as [st|e]; [|reflexivity].
  cbn [bind]. unfold summarize.
  destruct (qual_avgs_of (qual_array st)); reflexivity.
Qed.


Lemma summarize_accs (st st' : locals) :
  accs st = accs st' -> summarize st = summarize st'.
Proof.
  unfold accs, summarize. intros H; injection H as Hc Ho Hl Hq.
  rewrite Hc, Hl, Hq. reflexivity.
Qed.

Lemma bind_summarize_accs (r r' : res locals) :
  map_result accs r = map_result accs r' ->
  (st <- r ;; summarize st) = (st <- r' ;; summarize st).
Proof.
  destruct r as [st|e], r' as [st'|e']; cbn [map_result bind]; intros H.
  - apply summarize_accs. congruence.
  - discriminate.
  - discriminate.
  - congruence.
Qed.

(** The function is the decoding of the contributing records followed by
    the statistics. *)
Lemma get_file_features_contributing (recs : list record) (positions : Z * Z) :
  fst (get_file_features recs positions) =
  st <- absorb_all initial (contributing positions recs) ;; summarize st.
Proof.
  rewrite get_file_features_fst. unfold contributing.
  destruct (normalize positions) as [x y].
  apply bind_summarize_accs. apply (for_loop_in_window x y recs 0%nat initial).
Qed.

(** *** Which exceptions can be raised, and where *)

Lemma mapM_length {A B} (f : A -> res B) (l : list A) :
  forall bs, mapM f l = Ok bs -> List.length bs = List.length l.
Proof.
  induction l as [|a l IH]; intros bs; cbn [mapM].
  - intros H; injection H as <-; reflexivity.
  - destruct (f a) as [b|e]; cbn [bind]; [|discriminate].
    destruct (mapM f l) as [bs'|e]; cbn [bind]; [|discriminate].
    intros H; injection H as <-. cbn [List.length]. f_equal. apply IH. reflexivity.
Qed.

Lemma mapM_raises {A B} (f : A -> res B) (l : list A) (e : exn E) :
  mapM f l = Raise e -> exists a, In a l /\ f a = Raise e.
Proof.
  induction l as [|a l IH]; cbn [mapM]; [discriminate|].
  destruct (f a) as [b|e1] eqn:Ha; cbn [bind].
  - destruct (mapM f l) as [bs|e2]; cbn [bind]; [discriminate|].
    intros H; injection H as ->.
    destruct (IH eq_refl) as (a' & Hin & Hf). exists a'. split; [right|]; assumption.
  - intros H; injection H as ->. exists a. split; [left; reflexivity | exact Ha].
Qed.

Lemma helper_raises {A} (r : E + A) (e : exn E) :
  helper r = Raise e -> exists h, e = HelperError h.
Proof.
  destruct r as [h|a]; cbn [helper]; [|discriminate].
  intros H; injection H as <-. exists h; reflexivity.
Qed.

Lemma length_list_ascii (s : string) :
  List.length (list_ascii_of_string s) = String.length s.
Proof. induction s as [|c s IH]; cbn; [reflexivity | f_equal; exact IH]. Qed.

Lemma get_qual_features_raises (o : Z) (qual : string) (e : exn E) :
  (len qual =? 0) = false ->
  get_qual_features o qual = Raise e -> exists h, e = HelperError h.
Proof.
  intros Hq. unfold get_qual_features.
  destruct (mapM _ (list_ascii_of_string qual)) as [probs|e1] eqn:Hm; cbn [bind].
  - apply mapM_length in Hm. rewrite length_list_ascii in Hm.
    destruct probs as [|p probs].
    + apply Z.eqb_neq in Hq. unfold len in Hq. cbn in Hm. lia.
    + unfold truediv.
      replace (Z.of_nat (List.length (p :: probs)) =? 0) with false
        by (symmetry; apply Z.eqb_neq; cbn [List.length]; lia).
      cbn [bind min_float max_float]. discriminate.
  - intros H; injection H as ->.
    apply mapM_raises in Hm. destruct Hm as (c & _ & Hc).
    destruct (helper (transform_phred_to_prob c o)) as [pr|e2] eqn:Hh;
      cbn [bind] in Hc; [discriminate|].
    injection Hc as <-. apply (helper_raises _ _ Hh).
Qed.

Lemma sticky_offset_raises (current : Z) (qual : string) (e : exn E) :
  sticky_offset current qual = Raise e -> exists h, e = HelperError h.
Proof.
  unfold sticky_offset. destruct (current =? 0); [apply helper_raises | discriminate].
Qed.

Lemma absorb_raises (st : locals) (rec : record) (e : exn E) :
  (len (qual_of rec) =? 0) = false ->
  absorb st rec = Raise e -> exists h, e = HelperError h.
Proof.
  intros Hq. unfold absorb.
  destruct (sticky_offset (offset st) (qual_of rec)) as [o|e1] eqn:Ho; cbn [bind].
  - destruct (get_qual_features o (qual_of rec)) as [qf|e2] eqn:Hg; cbn [bind];
      [discriminate|].
    intros H; injection H as <-. apply (get_qual_features_raises _ _ _ Hq Hg).
  - intros H; injection H as <-. apply (sticky_offset_raises _ _ _ Ho).
Qed.

Lemma in_window_quality (x y : Z) (recs : list record) :
  forall p, Forall (fun rec => (len (qual_of rec) =? 0) = false) (in_window x y p recs).
Proof.
  induction recs as [|rec rest IH]; intros p; cbn [in_window]; [constructor|].
  cbn zeta.
  destruct (p + 1 <=? y); cbn [andb]; [|apply IH].
  destruct (len (qual_of rec) =? 0) eqn:Hq; cbn [negb andb]; [apply IH|].
  destruct (x <=? p + 1); [|apply IH].
  constructor; [exact Hq | apply IH].
Qed.

Lemma absorb_all_raises (recs : list record) :
  forall st e,
    Forall (fun rec => (len (qual_of rec) =? 0) = false) recs ->
    absorb_all st recs = Raise e -> exists h, e = HelperError h.
Proof.
  induction recs as [|rec rest IH]; intros st e Hall; cbn [absorb_all]; [discriminate|].
  inversion Hall as [|? ? Hq Hrest]; subst.
  destruct (absorb st rec) as [st'|e1] eqn:Hab; cbn [bind].
  - apply IH; exact Hrest.
  - intros H; injection H as <-. apply (absorb_raises _ _ _ Hq Hab).
Qed.

Lemma for_loop_raises (x y : Z) (recs : list record) (e : exn E) :
  fst (for_loop x y recs 0 initial) = Raise e -> exists h, e = HelperError h.
Proof.
  intros H. pose proof (for_loop_in_window x y recs 0%nat initial) as Hw.
  rewrite H in Hw. cbn [map_result] in Hw.
  destruct (absorb_all initial (in_window x y (position initial) recs)) as [st|e1] eqn:Ha;
    cbn [map_result] in Hw; [discriminate|].
  injection Hw as ->.
  apply (absorb_all_raises _ _ _ (in_window_quality x y recs _) Ha).
Qed.

Lemma mean_of_cases (l : list F) :
  match mean_of l with
  | Ok _ => l <> []
  | Raise e => e = ZeroDivisionError /\ l = []
  end.
Proof.
  unfold mean_of, truediv. destruct l as [|a l].
  - cbn. split; reflexivity.
  - replace (Z.of_nat (List.length (a :: l)) =? 0) with false
      by (symmetry; apply Z.eqb_neq; cbn [List.length]; lia).
    discriminate.
Qed.

Lemma qual_avgs_of_cases (qa : phred_dict (list F)) :
  match qual_avgs_of qa with
  | Ok _ => avg_avg_phred qa <> []
  | Raise e => e = ZeroDivisionError
  end.
Proof.
  unfold qual_avgs_of.
  pose proof (mean_of_cases (avg_avg_phred qa)) as Ha.
  pose proof (mean_of_cases (avg_min_phred qa)) as Hm.
  pose proof (mean_of_cases (avg_max_phred qa)) as Hx.
  destruct (mean_of (avg_avg_phred qa)); cbn [bind]; [|apply Ha].
  destruct (mean_of (avg_min_phred qa)); cbn [bind]; [|apply Hm].
  destruct (mean_of (avg_max_phred qa)); cbn [bind]; [exact Ha | apply Hx].
Qed.

Lemma length_insert_sorted (z : Z) (l : list Z) :
  List.length (insert_sorted z l) = S (List.length l).
Proof.
  induction l as [|h t IH]; cbn [insert_sorted]; [reflexivity|].
  destruct (z <=? h); cbn [List.length]; [reflexivity | f_equal; exact IH].
Qed.

Lemma length_sorted (l : list Z) : List.length (sorted l) = List.length l.
Proof.
  induction l as [|h t IH]; [reflexivity|].
  change (sorted (h :: t)) with (insert_sorted h (sorted t)).
  rewrite length_insert_sorted. cbn [List.length]. f_equal. exact IH.
Qed.

Lemma median_nonempty (h : Z) (t : list Z) : exists v, median (h :: t) = Ok v.
Proof.
  unfold median. cbn zeta. rewrite length_sorted. cbn [List.length].
  change (S (List.length t) =? 0)%nat with false. cbn iota.
  destruct (S (List.length t) mod 2 =? 1)%nat; eexists; reflexivity.
Qed.

(** On a non-empty accumulator the statistics fail only in [stdev], and
    exactly when there is a single length. *)
Lemma feature_vector_cases (h : Z) (t : list Z) (qual_avgs : phred_dict F) :
  match feature_vector (h :: t) qual_avgs with
  | Ok _ => t <> []
  | Raise e => e = StatisticsError /\ t = []
  end.
Proof.
  unfold feature_vector, int_div.
  replace (Z.of_nat (List.length (h :: t)) =? 0) with false
    by (symmetry; apply Z.eqb_neq; cbn [List.length]; lia).
  cbn [bind min_int max_int].
  destruct (median_nonempty h t) as [v ->]. cbn [bind].
  unfold stdev. destruct t as [|h' t]; cbn.
  - split; reflexivity.
  - discriminate.
Qed.


Lemma absorb_all_consistent (recs : list record) :
  forall st st', consistent st -> absorb_all st recs = Ok st' -> consistent st'.
Proof.
  induction recs as [|rec rest IH]; intros st st' H; cbn [absorb_all].
  - intros E0; injection E0 as <-; exact H.
  - destruct (absorb st rec) as [st1|e] eqn:Hab; cbn [bind]; [|discriminate].
    apply IH. apply (absorb_consistent _ _ _ H Hab).
Qed.

(** The reader is closed exactly when the averages of the quality
    accumulators have been computed. *)
Lemma get_file_features_closed (recs : list record) (positions : Z * Z) :
  closed (snd (get_file_features recs positions)) =
  match st <- absorb_all initial (contributing positions recs) ;;
        qual_avgs_of (qual_array st) with
  | Ok _ => true
  | Raise _ => false
  end.
Proof.
  rewrite get_file_features_unfold. unfold contributing.
  destruct (normalize positions) as [x y]. cbn zeta.
  pose proof (for_loop_in_window x y recs 0%nat initial) as Hw.
  destruct (for_loop_reader x y recs 0%nat initial) as [Hopen _].
  change (position initial) with 0 in Hw.
  destruct (fst (for_loop x y recs 0 initial)) as [st|e],
           (absorb_all initial (in_window x y 0 recs)) as [st'|e'];
    cbn [map_result bind] in *; try discriminate; try exact Hopen.
  injection Hw as _ _ _ Hq. rewrite <- Hq.
  destruct (qual_avgs_of (qual_array st)); cbn [snd]; [reflexivity | exact Hopen].
Qed.

(** *** Decoding with a frozen offset *)

Lemma absorb_all_frozen (recs : list record) :
  forall st,
    offset st <> 0 ->
    absorb_all st recs = map_result (extend st) (decoded_with (offset st) recs).
Proof.
  induction recs as [|rec rest IH]; intros st Ho.
  - cbn. destruct st as [p c o l [a m x]]. unfold extend. cbn.
    rewrite !app_nil_r, Z.add_0_r. reflexivity.
  - cbn [absorb_all]. unfold absorb, sticky_offset.
    replace (offset st =? 0) with false by (symmetry; apply Z.eqb_neq; exact Ho).
    unfold decoded_with. cbn [bind mapM].
    destruct (get_qual_features (offset st) (qual_of rec)) as [qf|e]; cbn [bind map_result];
      [|reflexivity].
    rewrite IH by exact Ho. cbn [offset]. unfold decoded_with.
    destruct (mapM _ rest) as [qfs|e]; cbn [bind map_result]; [|reflexivity].
    unfold extend, append_features; cbn.
    rewrite <- !app_assoc. cbn [app].
    do 2 f_equal. lia.
Qed.

(** *** Properties of [get_file_features] *)

(** C5. When both bounds of the window are non-zero and the end is below
    the start, [get_file_features] returns what it returns on the window
    with the two bounds exchanged: the same feature vector and count, or the
    same exception, with the reader in the same state. *)
Theorem window_swap (recs : list record) (x y : Z) :
  x <> 0 -> y <> 0 -> y < x ->
  get_file_features recs (x, y) = get_file_features recs (y, x).
Proof.
  intros Hx Hy Hlt. unfold get_file_features.
  replace (normalize (x, y)) with (y, x); [replace (normalize (y, x)) with (y, x)|].
  - reflexivity.
  - unfold normalize.
    replace (x <? y) with false by (symmetry; apply Z.ltb_ge; lia).
    rewrite andb_false_r. reflexivity.
  - unfold normalize.
    apply Z.eqb_neq in Hx, Hy. apply Z.ltb_lt in Hlt.
    rewrite Hx, Hy, Hlt. reflexivity.
Qed.

(** C9. After each record the loop processes, the count of contributing
    reads equals the number of entries of [lengths] and of each of the three
    quality accumulators; and when [get_file_features] returns, the count it
    returns is the count of such a state. *)
Theorem count_agrees_with_accumulators (recs : list record) (positions : Z * Z) :
  let (x, y) := normalize positions in
  Forall consistent (trace x y recs initial) /\
  match fst (get_file_features recs positions) with
  | Ok (_, returned) =>
      exists st, fst (for_loop x y recs 0 initial) = Ok st /\
                 consistent st /\ returned = count st
  | Raise _ => True
  end.
Proof.
  rewrite get_file_features_fst. destruct (normalize positions) as [x y].
  split; [apply trace_consistent, consistent_initial|].
  destruct (fst (for_loop x y recs 0 initial)) as [st|e] eqn:Hl; cbn [bind];
    [|exact I].
  unfold summarize.
  destruct (qual_avgs_of (qual_array st)); cbn [bind]; [|exact I].
  destruct (feature_vector (lengths st) a); cbn [bind]; [|exact I].
  exists st. repeat split.
  - apply (for_loop_consistent x y recs 0%nat initial st consistent_initial Hl).
  - apply (for_loop_consistent x y recs 0%nat initial st consistent_initial Hl).
  - apply (for_loop_consistent x y recs 0%nat initial st consistent_initial Hl).
  - apply (for_loop_consistent x y recs 0%nat initial st consistent_initial Hl).
Qed.

(** C10. With an end bound of 0, whatever the file and the start bound,
    [get_file_features] takes at most one record from the reader, no record
    contributes, the accumulators stay empty, and the call raises
    [ZeroDivisionError]: it never returns a feature vector. *)
Theorem end_bound_zero_raises (recs : list record) (x : Z) :
  fst (get_file_features recs (x, 0)) = Raise ZeroDivisionError /\
  (consumed (snd (get_file_features recs (x, 0%Z))) <= 1)%nat /\
  contributing (x, 0) recs = [] /\
  Forall (fun st => accs st = accs initial) (trace x 0 recs initial).
Proof.
  assert (Hn : normalize (x, 0) = (x, 0)).
  { unfold normalize. rewrite andb_false_r. reflexivity. }
  unfold contributing. rewrite get_file_features_unfold, Hn.
  destruct recs as [|rec rest].
  - cbn. repeat split; try lia. constructor.
  - cbn [for_loop trace in_window]. rewrite loop_body_cases. cbn.
    repeat split; try lia.
    + apply in_window_beyond. lia.
    + constructor; [reflexivity | constructor].
Qed.


(** C3, as amended. The reader is closed when [get_file_features] returns
    a feature vector and when it fails in the statistics of the lengths
    ([StatisticsError], raised after the call of [close]); when it fails
    with the division error of the empty quality accumulators or with an
    error of a decoding helper, it terminates with the reader still open.
    No other exception leaves the function. *)
Theorem reader_closed_after_averages (recs : list record) (positions : Z * Z) :
  match get_file_features recs positions with
  | (Ok _, reader) | (Raise StatisticsError, reader) => closed reader = true
  | (Raise ZeroDivisionError, reader) | (Raise (HelperError _), reader) =>
      closed reader = false
  | (Raise ValueError, _) | (Raise IndexError, _) => False
  end.
Proof.
  pose proof (get_file_features_contributing recs positions) as Hf.
  pose proof (get_file_features_closed recs positions) as Hc.
  destruct (get_file_features recs positions) as [r reader].
  cbn [fst snd] in Hf, Hc. subst r. rewrite Hc. clear Hc.
  destruct (absorb_all initial (contributing positions recs)) as [st|e] eqn:Ha;
    cbn [bind].
  - pose proof (absorb_all_consistent _ _ _ consistent_initial Ha) as (_ & Hl & _).
    unfold summarize.
    pose proof (qual_avgs_of_cases (qual_array st)) as Hq.
    destruct (qual_avgs_of (qual_array st)) as [qual_avgs|e]; cbn [bind].
    + destruct (lengths st) as [|h t].
      * destruct (avg_avg_phred (qual_array st)); [contradiction | discriminate].
      * pose proof (feature_vector_cases h t qual_avgs) as Hv.
        destruct (feature_vector (h :: t) qual_avgs); cbn [bind]; [reflexivity|].
        destruct Hv as [-> _]. reflexivity.
    + subst e. reflexivity.
  - unfold contributing in Ha. destruct (normalize positions) as [x y].
    destruct (absorb_all_raises _ _ _ (in_window_quality x y recs 0) Ha) as [h ->].
    reflexivity.
Qed.

(** C7, as amended. When exactly one read contributes and its quality
    decodes ([get_offset] gives it an offset and [get_qual_features]
    returns under that offset), [get_file_features] raises the
    [StatisticsError] of [stdev] and returns no feature vector; the reader
    has been closed by then. *)
Theorem single_read_raises_statistics_error
    (recs : list record) (positions : Z * Z) (rec : record) (o : Z)
    (qual_features : phred_dict F) :
  contributing positions recs = [rec] ->
  get_offset (qual_of rec) = inr o ->
  get_qual_features o (qual_of rec) = Ok qual_features ->
  fst (get_file_features recs positions) = Raise StatisticsError /\
  closed (snd (get_file_features recs positions)) = true.
Proof.
  intros Hone Ho Hq.
  assert (Hab : absorb_all initial [rec] =
                Ok {| position := 0; count := 1; offset := o;
                      lengths := [len (read_of rec)];
                      qual_array := mk_phred [avg_avg_phred qual_features]
                                             [avg_min_phred qual_features]
                                             [avg_max_phred qual_features] |}).
  { cbn [absorb_all]. unfold absorb, sticky_offset. cbn [offset initial Z.eqb].
    rewrite Ho. cbn [helper bind]. rewrite Hq. reflexivity. }
  assert (Hm : forall a : F, mean_of [a] = Ok (fdiv (float_sum [a]) (float_of_int 1))).
  { intros a. reflexivity. }
  rewrite get_file_features_contributing, get_file_features_closed, Hone, Hab.
  cbn [bind qual_array avg_avg_phred avg_min_phred avg_max_phred].
  unfold summarize, qual_avgs_of.
  cbn [qual_array lengths avg_avg_phred avg_min_phred avg_max_phred].
  rewrite !Hm. cbn [bind]. split; [|reflexivity].
  match goal with |- context [feature_vector ?l ?q] =>
    pose proof (feature_vector_cases (len (read_of rec)) [] q) as Hv;
    destruct (feature_vector l q) end; cbn [bind].
  - contradiction.
  - destruct Hv as [-> _]. reflexivity.
Qed.

(** C6. The offset is taken from the quality string of the first
    contributing record and kept: when that offset is a proper (non-zero)
    one, the whole result of [get_file_features] is that of decoding every
    contributing record with it, whatever offset [get_offset] would give to
    a later record. *)
Theorem offset_frozen_after_first_read
    (recs : list record) (positions : Z * Z) (rec : record) (rest : list record)
    (o : Z) :
  contributing positions recs = rec :: rest ->
  get_offset (qual_of rec) = inr o ->
  o <> 0 ->
  fst (get_file_features recs positions) =
  st <- decoded_with o (rec :: rest) ;; summarize st.
Proof.
  intros Hc Ho Hnz.
  rewrite get_file_features_contributing, Hc.
  set (start := {| position := 0; count := 0; offset := o; lengths := [];
                   qual_array := mk_phred [] [] [] |}).
  assert (Hfirst : absorb initial rec = absorb start rec).
  { unfold absorb, sticky_offset. cbn [offset initial start Z.eqb].
    rewrite Ho. cbn [helper].
    replace (o =? 0) with false by (symmetry; apply Z.eqb_neq; exact Hnz).
    reflexivity. }
  change (absorb_all initial (rec :: rest))
    with (st' <- absorb initial rec ;; absorb_all st' rest).
  rewrite Hfirst.
  change (st' <- absorb start rec ;; absorb_all st' rest)
    with (absorb_all start (rec :: rest)).
  rewrite (absorb_all_frozen (rec :: rest) start Hnz).
  cbn [offset start].
  destruct (decoded_with o (rec :: rest)) as [d|e] eqn:Hd; cbn [map_result bind];
    [|reflexivity].
  apply summarize_accs.
  unfold decoded_with in Hd.
  destruct (mapM _ (rec :: rest)); cbn [bind] in Hd; [|discriminate].
  injection Hd as <-. reflexivity.
Qed.

(** C1, at the failing input. On a file of three reads, two of them with
    a quality string, an unlimited window (0, 0) would have both of these
    contribute; the function takes the first record, lets no record
    contribute, leaves the other two unread, and raises
    [ZeroDivisionError]. *)
Theorem whole_file_window_reads_nothing :
  List.length (to_end_of_file 0 0 three_reads) = 2%nat /\
  contributing (0, 0) three_reads = [] /\
  get_file_features three_reads (0, 0) =
  (Raise ZeroDivisionError,
   {| pending := tl three_reads; consumed := 1; closed := false |}).
Proof.
  split; [reflexivity|]. split; [reflexivity|].
  rewrite get_file_features_unfold. reflexivity.
Qed.

(** The nine components of a returned vector, in the order of [HEADER]. *)
Lemma feature_vector_layout (ls : list Z) (qual_avgs : phred_dict F)
    (features : list value) :
  feature_vector ls qual_avgs = Ok features ->
  exists avg_length min_length max_length median_length,
    features =
    [ Float avg_length; Int min_length; Int max_length; median_length;
      Float (stdev_float ls); NpFloat (skew ls);
      Float (avg_avg_phred qual_avgs);
      Float (avg_min_phred qual_avgs);
      Float (avg_max_phred qual_avgs) ] /\
    List.length features = List.length HEADER.
Proof.
  unfold feature_vector, stdev.
  destruct (int_div _ _) as [avg|e]; cbn [bind]; [|discriminate].
  destruct (min_int ls) as [lo|e]; cbn [bind]; [|discriminate].
  destruct (max_int ls) as [hi|e]; cbn [bind]; [|discriminate].
  destruct (median ls) as [med|e]; cbn [bind]; [|discriminate].
  destruct (List.length ls <? 2)%nat; cbn [bind]; [discriminate|].
  intros H; injection H as <-. exists avg, lo, hi, med. split; reflexivity.
Qed.

(** *** The aggregator *)

Lemma split_fastq (s : string) :
  endswith s ".fastq" = true -> exists a b l, split dot s = a :: b :: l.
Proof.
  induction s as [|c s IH]; [discriminate|].
  cbn [endswith]. intros H. apply orb_true_iff in H. destruct H as [H|H].
  - apply String.eqb_eq in H. rewrite H. do 3 eexists. reflexivity.
  - destruct (IH H) as (a & b & l & Hs). cbn [split]. rewrite Hs.
    destruct (Ascii.eqb c dot); do 3 eexists; reflexivity.
Qed.

Lemma listing_loop_app (before rest : directory) (positions : Z * Z) :
  forall output n,
    listing_loop (before ++ rest) positions output n =
    match listing_loop before positions output n with
    | (Ok n', output') => listing_loop rest positions output' n'
    | (Raise e, output') => (Raise e, output')
    end.
Proof.
  induction before as [|[filename recs] before IH]; intros output n; [reflexivity|].
  cbn [app listing_loop].
  destruct (endswith filename ".fastq"); [|apply IH].
  destruct (fst (get_file_features recs positions)) as [[features c]|e]; [|reflexivity].
  destruct (index (split dot filename) 1); [|reflexivity].
  destruct (index (split dot filename) 0); [|reflexivity].
  apply IH.
Qed.

Lemma listing_loop_extracts (before : directory) (positions : Z * Z) :
  forall output n,
    forallb (extracts positions) before = true ->
    exists n' output', listing_loop before positions output n = (Ok n', output').
Proof.
  induction before as [|[filename recs] before IH]; intros output n H.
  - do 2 eexists. reflexivity.
  - cbn [forallb] in H. apply andb_true_iff in H. destruct H as [Hx Hrest].
    unfold extracts in Hx. cbn [fst snd] in Hx. cbn [listing_loop].
    destruct (endswith filename ".fastq") eqn:Hend; [|apply IH; exact Hrest].
    cbn [negb orb] in Hx.
    destruct (fst (get_file_features recs positions)) as [[features c]|e];
      [|discriminate].
    destruct (split_fastq _ Hend) as (a & b & l & ->). cbn [index nth_error].
    apply IH; exact Hrest.
Qed.

(** C4. When no read of a file contributes, [get_file_features] raises
    [ZeroDivisionError] and returns no value in its place; and
    [get_directory_features], reaching such a file after entries it got
    past, ends with that exception: no later file is processed. *)
Theorem empty_window_error_propagates (recs : list record) (positions : Z * Z) :
  contributing positions recs = [] ->
  fst (get_file_features recs positions) = Raise ZeroDivisionError /\
  forall (before after : directory) (filename : string) (header srr : bool)
         (output : string),
    endswith filename ".fastq" = true ->
    forallb (extracts positions) before = true ->
    fst (get_directory_features (before ++ (filename, recs) :: after)
           positions header output srr) = Raise ZeroDivisionError.
Proof.
  intros Hnone.
  assert (Hfile : fst (get_file_features recs positions) = Raise ZeroDivisionError).
  { rewrite get_file_features_contributing, Hnone. reflexivity. }
  split; [exact Hfile|].
  intros before after filename header srr output Hend Hbefore.
  unfold get_directory_features. rewrite listing_loop_app.
  match goal with |- context [listing_loop before positions ?out ?n] =>
    destruct (listing_loop_extracts before positions out n Hbefore) as (n' & out' & ->)
  end.
  cbn [listing_loop]. rewrite Hend, Hfile. reflexivity.
Qed.

(** C2, at the failing input. Without a header the output does not depend
    on [srr]; and for the single file [SRR111.illumina.fastq], with [srr]
    false, the row written is the feature vector followed by the platform
    label and then by the accession label. *)
Theorem accession_label_written_without_srr :
  (forall (dir : directory) (positions : Z * Z) (output : string) (srr : bool),
      get_directory_features dir positions false output srr =
      get_directory_features dir positions false output true) /\
  (forall (recs : list record) (positions : Z * Z) (output : string),
      get_directory_features [("SRR111.illumina.fastq"%string, recs)]
        positions false output false =
      match fst (get_file_features recs positions) with
      | Ok (features, _) =>
          (Ok 1,
           (output ++
            join tab (map str (features ++ [Str "illumina"; Str "SRR111"])) ++
            newline)%string)
      | Raise e => (Raise e, output)
      end).
Proof.
  split.
  - intros dir positions output srr. unfold get_directory_features.
    rewrite andb_false_r. reflexivity.
  - intros recs positions output. unfold get_directory_features, listing_loop.
    change (endswith "SRR111.illumina.fastq" ".fastq") with true. cbn iota.
    destruct (fst (get_file_features recs positions)) as [[features c]|e];
      reflexivity.
Qed.


(** *** The window and the reader *)

Lemma in_window_firstn (x y : Z) (recs : list record) :
  forall p, in_window x y p recs = in_window x y p (firstn (Z.to_nat (y - p)) recs).
Proof.
  induction recs as [|rec rest IH]; intros p.
  - rewrite firstn_nil. reflexivity.
  - destruct (Z_le_gt_dec (p + 1) y) as [Hin|Hout].
    + replace (Z.to_nat (y - p)) with (S (Z.to_nat (y - (p + 1)))) by lia.
      cbn [firstn in_window]. cbn zeta. rewrite <- IH. reflexivity.
    + replace (Z.to_nat (y - p)) with 0%nat by lia.
      cbn [firstn in_window]. cbn zeta.
      replace (p + 1 <=? y) with false by (symmetry; apply Z.leb_gt; lia).
      cbn [andb]. apply in_window_beyond. lia.
Qed.

(** X1. The result of [get_file_features] depends only on the records up
    to the end bound of the (normalized) window: the records after it can be
    cut off the file without changing the value returned or the exception
    raised. *)
Theorem records_after_window_ignored (recs : list record) (positions : Z * Z) :
  fst (get_file_features recs positions) =
  fst (get_file_features
         (firstn (Z.to_nat (snd (normalize positions))) recs) positions).
Proof.
  rewrite !get_file_features_contributing. unfold contributing.
  destruct (normalize positions) as [x y]. cbn [snd].
  rewrite (in_window_firstn x y recs 0). rewrite Z.sub_0_r. reflexivity.
Qed.

Lemma loop_body_position (x y : Z) (st st' : locals) (rec : record) :
  loop_body x y st rec = Next st' ->
  position st' = position st + 1 /\ position st + 1 <= y.
Proof.
  rewrite loop_body_cases. cbn zeta.
  destruct (y <? position st + 1) eqn:Hy; [discriminate|].
  apply Z.ltb_ge in Hy.
  destruct ((len (qual_of rec) =? 0) || (position st + 1 <? x)).
  - intros H; injection H as <-. split; [reflexivity | exact Hy].
  - rewrite absorb_set_position.
    destruct (absorb st rec) as [st1|e]; cbn [map_result]; [|discriminate].
    intros H; injection H as <-. split; [reflexivity | exact Hy].
Qed.

Lemma loop_body_break (x y : Z) (st st' : locals) (rec : record) :
  loop_body x y st rec = Break st' -> y < position st + 1.
Proof.
  rewrite loop_body_cases. cbn zeta.
  destruct (y <? position st + 1) eqn:Hy; [intros _; apply Z.ltb_lt; exact Hy|].
  destruct ((len (qual_of rec) =? 0) || (position st + 1 <? x)); [discriminate|].
  destruct (absorb _ rec); discriminate.
Qed.

Lemma for_loop_consumption (x y : Z) (recs : list record) :
  forall k st,
    let rd := snd (for_loop x y recs k st) in
    pending rd = skipn (consumed rd - k) recs /\
    (consumed rd <= k + List.length recs)%nat /\
    (consumed rd <= k + (Z.to_nat (y - position st) + 1))%nat /\
    match fst (for_loop x y recs k st) with
    | Ok _ =>
        consumed rd =
        (k + Nat.min (List.length recs) (Z.to_nat (y - position st) + 1))%nat
    | Raise _ => True
    end.
Proof.
  induction recs as [|rec rest IH]; intros k st; cbn zeta; cbn [for_loop].
  - cbn. rewrite Nat.sub_diag. repeat split; lia.
  - destruct (loop_body x y st rec) as [st1|st1|e] eqn:Hb.
    + destruct (loop_body_position _ _ _ _ _ Hb) as [Hp Hy].
      specialize (IH (S k) st1). cbn zeta in IH.
      destruct IH as (Hpend & Hlen & Hwin & Hexact).
      pose proof (for_loop_reader x y rest (S k) st1) as [_ Hk].
      rewrite Hp in Hwin, Hexact. cbn [List.length].
      split; [|split; [lia | split; [lia|]]].
      * rewrite Hpend.
        replace (consumed (snd (for_loop x y rest (S k) st1)) - k)%nat
          with (S (consumed (snd (for_loop x y rest (S k) st1)) - S k)) by lia.
        reflexivity.
      * destruct (fst (for_loop x y rest (S k) st1)); [|exact I].
        rewrite Hexact. lia.
    + apply loop_body_break in Hb. cbn [fst snd pending consumed List.length].
      replace (S k - k)%nat with 1%nat by lia. cbn [skipn].
      repeat split; lia.
    + cbn [fst snd pending consumed List.length].
      replace (S k - k)%nat with 1%nat by lia. cbn [skipn].
      repeat split; lia.
Qed.

(** X2. [get_file_features] reads the file front to back and stops early:
    the records left in the reader are the file without the records taken,
    it takes at most one record beyond the end bound of the window, and,
    unless a decoding helper fails, it takes exactly the smaller of the file
    length and the end bound plus one. *)
Theorem reads_one_record_past_window (recs : list record) (positions : Z * Z) :
  let rd := snd (get_file_features recs positions) in
  let y := snd (normalize positions) in
  pending rd = skipn (consumed rd) recs /\
  (consumed rd <= List.length recs)%nat /\
  (consumed rd <= Z.to_nat y + 1)%nat /\
  match fst (get_file_features recs positions) with
  | Raise (HelperError _) => True
  | _ => consumed rd = Nat.min (List.length recs) (Z.to_nat y + 1)
  end.
Proof.
  cbn zeta. rewrite get_file_features_unfold.
  destruct (normalize positions) as [x y]. cbn [snd]. cbn zeta.
  pose proof (for_loop_consumption x y recs 0%nat initial) as H. cbn zeta in H.
  change (position initial) with 0 in H. rewrite Z.sub_0_r, Nat.sub_0_r in H.
  cbn [Nat.add] in H. destruct H as (Hpend & Hlen & Hwin & Hexact).
  pose proof (for_loop_raises x y recs) as Hraise.
  destruct (fst (for_loop x y recs 0 initial)) as [st|e].
  - destruct (qual_avgs_of (qual_array st)) as [qa|e] eqn:Hq.
    + cbn [fst snd SeqReader_close pending consumed].
      repeat split; try assumption.
      destruct (feature_vector (lengths st) qa) as [fv|e]; cbn [bind];
        [exact Hexact|].
      destruct e; first [exact Hexact | exact I].
    + cbn [fst snd]. repeat split; try assumption.
      pose proof (qual_avgs_of_cases (qual_array st)) as Hc. rewrite Hq in Hc.
      subst e. exact Hexact.
  - cbn [fst snd]. repeat split; try assumption.
    destruct (Hraise e eq_refl) as [h ->]. exact I.
Qed.


Lemma loop_body_start (y : Z) (st : locals) (rec : record) :
  0 <= position st -> loop_body 0 y st rec = loop_body 1 y st rec.
Proof.
  intros Hp. rewrite !loop_body_cases. cbn zeta.
  replace (position st + 1 <? 0) with false by (symmetry; apply Z.ltb_ge; lia).
  replace (position st + 1 <? 1) with false by (symmetry; apply Z.ltb_ge; lia).
  reflexivity.
Qed.

Lemma for_loop_start (y : Z) (recs : list record) :
  forall k st,
    0 <= position st -> for_loop 0 y recs k st = for_loop 1 y recs k st.
Proof.
  induction recs as [|rec rest IH]; intros k st Hp; [reflexivity|].
  cbn [for_loop]. rewrite (loop_body_start y st rec Hp).
  destruct (loop_body 1 y st rec) as [st1|st1|e] eqn:Hb; try reflexivity.
  apply IH. apply loop_body_position in Hb. lia.
Qed.

(** X3. Positions are counted from 1, so a start bound of 0 (the default
    of the function) and a start bound of 1 (the default of the command
    line) select the same records: for an end bound that is not negative the
    two calls give the same result and leave the reader in the same state. *)
Theorem start_zero_is_start_one (recs : list record) (y : Z) :
  0 <= y ->
  get_file_features recs (0, y) = get_file_features recs (1, y).
Proof.
  intros Hy. unfold get_file_features.
  assert (H1 : normalize (1, y) = (1, y)).
  { unfold normalize. cbn [Z.eqb negb andb].
    destruct (y =? 0) eqn:H0; cbn [negb andb]; [reflexivity|].
    replace (y <? 1) with false; [reflexivity|].
    symmetry. apply Z.ltb_ge. apply Z.eqb_neq in H0. lia. }
  rewrite H1. change (normalize (0, y)) with (0, y).
  cbn [SeqReader_open pending consumed].
  rewrite (for_loop_start y recs 0%nat initial); [reflexivity | cbn; lia].
Qed.

(** *** What a successful call returns *)

Lemma get_file_features_returns (recs : list record) (positions : Z * Z)
    (features : list value) (n : Z) :
  fst (get_file_features recs positions) = Ok (features, n) ->
  exists st qual_avgs,
    absorb_all initial (contributing positions recs) = Ok st /\
    qual_avgs_of (qual_array st) = Ok qual_avgs /\
    feature_vector (lengths st) qual_avgs = Ok features /\
    n = count st.
Proof.
  rewrite get_file_features_contributing.
  destruct (absorb_all initial (contributing positions recs)) as [st|e]; cbn [bind];
    [|discriminate].
  unfold summarize.
  destruct (qual_avgs_of (qual_array st)) as [qa|e] eqn:Hq; cbn [bind];
    [|discriminate].
  destruct (feature_vector (lengths st) qa) as [fv|e] eqn:Hv; cbn [bind];
    [|discriminate].
  intros H; injection H as <- <-. exists st, qa.
  split; [reflexivity|]. split; [exact Hq|]. split; [exact Hv | reflexivity].
Qed.

Lemma absorb_all_lengths (recs : list record) :
  forall st st',
    absorb_all st recs = Ok st' ->
    count st' = count st + Z.of_nat (List.length recs) /\
    lengths st' = lengths st ++ map (fun rec => len (read_of rec)) recs.
Proof.
  induction recs as [|rec rest IH]; intros st st'; cbn [absorb_all].
  - intros H; injection H as <-. cbn. rewrite app_nil_r. split; [lia | reflexivity].
  - destruct (absorb st rec) as [st1|e] eqn:Hab; cbn [bind]; [|discriminate].
    intros H. apply IH in H. destruct H as [Hc Hl].
    unfold absorb in Hab.
    destruct (sticky_offset (offset st) (qual_of rec)) as [o|e]; cbn [bind] in Hab;
      [|discriminate].
    destruct (get_qual_features o (qual_of rec)) as [qf|e]; cbn [bind] in Hab;
      [|discriminate].
    injection Hab as <-. cbn [count lengths] in Hc, Hl.
    rewrite Hc, Hl, <- app_assoc. cbn [List.length map app]. split; [lia | reflexivity].
Qed.

Lemma in_window_length (x y : Z) (recs : list record) :
  forall p,
    (List.length (in_window x y p recs) <= Z.to_nat (y - Z.max x (p + 1) + 1))%nat.
Proof.
  induction recs as [|rec rest IH]; intros p; cbn [in_window]; [cbn; lia|].
  cbn zeta. specialize (IH (p + 1)).
  destruct (p + 1 <=? y) eqn:Hy; cbn [andb]; [|lia].
  destruct (negb (len (qual_of rec) =? 0)); cbn [andb]; [|lia].
  destruct (x <=? p + 1) eqn:Hx; [|lia].
  apply Z.leb_le in Hy, Hx. cbn [List.length]. lia.
Qed.

(** X4. When [get_file_features] returns, the count it returns is the
    number of contributing records, it is at least 2 and at most the number
    of positions of the window, and the feature vector has one component
    for each name of [HEADER]. *)
Theorem returned_count_and_size (recs : list record) (positions : Z * Z) :
  match fst (get_file_features recs positions) with
  | Ok (features, n) =>
      n = Z.of_nat (List.length (contributing positions recs)) /\
      2 <= n /\
      (let (x, y) := normalize positions in n <= y - Z.max x 1 + 1) /\
      List.length features = List.length HEADER
  | Raise _ => True
  end.
Proof.
  destruct (fst (get_file_features recs positions)) as [[features n]|e] eqn:H;
    [|exact I].
  apply get_file_features_returns in H. destruct H as (st & qa & Ha & _ & Hv & ->).
  destruct (absorb_all_lengths _ _ _ Ha) as [Hc Hl]. cbn [count lengths initial app] in Hc, Hl.
  assert (Hn : count st = Z.of_nat (List.length (contributing positions recs)))
    by lia.
  assert (Hlen : List.length (lengths st) = List.length (contributing positions recs))
    by (rewrite Hl; apply length_map).
  assert (Htwo : 2 <= count st).
  { destruct (lengths st) as [|h t] eqn:Hls.
    - unfold feature_vector, int_div in Hv. cbn in Hv. discriminate.
    - pose proof (feature_vector_cases h t qa) as Hcases. rewrite Hv in Hcases.
      destruct t; [contradiction|]. cbn [List.length] in Hlen. lia. }
  split; [exact Hn|]. split; [exact Htwo|]. split.
  - rewrite Hn in Htwo |- *. unfold contributing in *.
    destruct (normalize positions) as [x y].
    pose proof (in_window_length x y recs 0). cbn [Z.add] in H. lia.
  - destruct (feature_vector_layout _ _ _ Hv) as (? & ? & ? & ? & _ & Hsize).
    exact Hsize.
Qed.

(** X5. When every contributing record decodes and at least two records
    contribute, [get_file_features] returns: a feature vector, the number of
    contributing records as the count, and the reader closed. *)
Theorem returns_with_two_decoded_reads
    (recs : list record) (positions : Z * Z) (st : locals) :
  absorb_all initial (contributing positions recs) = Ok st ->
  (2 <= List.length (contributing positions recs))%nat ->
  exists features,
    fst (get_file_features recs positions) =
      Ok (features, Z.of_nat (List.length (contributing positions recs))) /\
    closed (snd (get_file_features recs positions)) = true.
Proof.
  intros Ha Htwo.
  destruct (absorb_all_lengths _ _ _ Ha) as [Hc Hl].
  cbn [count lengths initial app] in Hc, Hl.
  pose proof (absorb_all_consistent _ _ _ consistent_initial Ha) as (_ & Hq1 & Hq2 & Hq3).
  assert (Hlen : List.length (lengths st) = List.length (contributing positions recs))
    by (rewrite Hl; apply length_map).
  rewrite get_file_features_contributing, get_file_features_closed, Ha.
  cbn [bind]. unfold summarize.
  pose proof (mean_of_cases (avg_avg_phred (qual_array st))) as M1.
  pose proof (mean_of_cases (avg_min_phred (qual_array st))) as M2.
  pose proof (mean_of_cases (avg_max_phred (qual_array st))) as M3.
  unfold qual_avgs_of.
  destruct (mean_of (avg_avg_phred (qual_array st))) as [a|e];
    [|destruct M1 as [_ M1]; rewrite M1 in Hq1; cbn in Hq1; lia].
  destruct (mean_of (avg_min_phred (qual_array st))) as [b|e];
    [|destruct M2 as [_ M2]; rewrite M2 in Hq2; cbn in Hq2; lia].
  destruct (mean_of (avg_max_phred (qual_array st))) as [c|e];
    [|destruct M3 as [_ M3]; rewrite M3 in Hq3; cbn in Hq3; lia].
  cbn [bind].
  destruct (lengths st) as [|h t]; [cbn in Hlen; lia|].
  pose proof (feature_vector_cases h t (mk_phred a b c)) as Hv.
  destruct (feature_vector (h :: t) (mk_phred a b c)) as [fv|e]; cbn [bind].
  - exists fv. split; [|reflexivity]. do 2 f_equal. lia.
  - destruct Hv as [_ ->]. cbn in Hlen. lia.
Qed.


Lemma fold_min_spec (t : list Z) :
  forall h, Forall (fun z => fold_left Z.min t h <= z) (h :: t) /\
            In (fold_left Z.min t h) (h :: t).
Proof.
  induction t as [|a t IH]; intros h; cbn [fold_left].
  - split; [constructor; [lia | constructor] | left; reflexivity].
  - destruct (IH (Z.min h a)) as [Hall Hin].
    inversion Hall as [|? ? Hm Ht]; subst. split.
    + constructor; [lia|]. constructor; [lia | exact Ht].
    + destruct Hin as [Hin|Hin]; [|right; right; exact Hin].
      rewrite <- Hin. destruct (Z.min_spec h a) as [[_ ->]|[_ ->]];
        [left | right; left]; reflexivity.
Qed.

Lemma fold_max_spec (t : list Z) :
  forall h, Forall (fun z => z <= fold_left Z.max t h) (h :: t) /\
            In (fold_left Z.max t h) (h :: t).
Proof.
  induction t as [|a t IH]; intros h; cbn [fold_left].
  - split; [constructor; [lia | constructor] | left; reflexivity].
  - destruct (IH (Z.max h a)) as [Hall Hin].
    inversion Hall as [|? ? Hm Ht]; subst. split.
    + constructor; [lia|]. constructor; [lia | exact Ht].
    + destruct Hin as [Hin|Hin]; [|right; right; exact Hin].
      rewrite <- Hin. destruct (Z.max_spec h a) as [[_ ->]|[_ ->]];
        [right; left | left]; reflexivity.
Qed.

(** X6. In a returned feature vector, [min_length] and [max_length] (the
    second and third components) are lengths of contributing reads, every
    contributing read has a length between them, and [min_length] is not
    negative. *)
Theorem min_max_length_bound_reads (recs : list record) (positions : Z * Z) :
  match fst (get_file_features recs positions) with
  | Ok (features, _) =>
      exists lo hi,
        nth_error features 1 = Some (Int lo) /\
        nth_error features 2 = Some (Int hi) /\
        0 <= lo <= hi /\
        (forall rec, In rec (contributing positions recs) ->
                     lo <= len (read_of rec) <= hi) /\
        (exists rec, In rec (contributing positions recs) /\ len (read_of rec) = lo) /\
        (exists rec, In rec (contributing positions recs) /\ len (read_of rec) = hi)
  | Raise _ => True
  end.
Proof.
  destruct (fst (get_file_features recs positions)) as [[features n]|e] eqn:H;
    [|exact I].
  apply get_file_features_returns in H. destruct H as (st & qa & Ha & _ & Hv & _).
  destruct (absorb_all_lengths _ _ _ Ha) as [_ Hl]. cbn [lengths initial app] in Hl.
  set (length_of := fun rec : record => len (read_of rec)) in *.
  destruct (lengths st) as [|h t] eqn:Hls.
  { unfold feature_vector, int_div in Hv. cbn in Hv. discriminate. }
  destruct (feature_vector_layout _ _ _ Hv) as (avg & lo & hi & med & -> & _).
  unfold feature_vector, int_div in Hv.
  destruct (Z.of_nat (List.length (h :: t)) =? 0); cbn [bind] in Hv; [discriminate|].
  cbn [min_int max_int bind] in Hv.
  destruct (median (h :: t)); cbn [bind] in Hv; [|discriminate].
  destruct (stdev (h :: t)); cbn [bind] in Hv; [|discriminate].
  injection Hv as _ Hlo Hhi _ _. subst lo hi.
  destruct (fold_min_spec t h) as [Hmin Hmin_in].
  destruct (fold_max_spec t h) as [Hmax Hmax_in].
  rewrite Hl in Hmin, Hmin_in, Hmax, Hmax_in.
  rewrite Forall_forall in Hmin, Hmax.
  exists (fold_left Z.min t h), (fold_left Z.max t h).
  split; [reflexivity|]. split; [reflexivity|].
  assert (Hbetween : forall rec, In rec (contributing positions recs) ->
            fold_left Z.min t h <= len (read_of rec) <= fold_left Z.max t h).
  { intros rec Hin. split; [apply Hmin | apply Hmax];
      apply (in_map length_of); exact Hin. }
  apply in_map_iff in Hmin_in, Hmax_in.
  destruct Hmin_in as (rlo & Hrlo & Hinlo), Hmax_in as (rhi & Hrhi & Hinhi).
  split; [|split; [exact Hbetween | split; [exists rlo | exists rhi]; split; assumption]].
  pose proof (Hbetween rlo Hinlo). unfold length_of in Hrlo. unfold len in *. lia.
Qed.

(** *** Rows, header and label fields *)

Lemma append_assoc (a b c : string) : ((a ++ b) ++ c = a ++ (b ++ c))%string.
Proof. induction a as [|ch a IH]; cbn; [reflexivity | rewrite IH; reflexivity]. Qed.

Lemma append_empty_r (a : string) : (a ++ EmptyString = a)%string.
Proof. induction a as [|ch a IH]; cbn; [reflexivity | rewrite IH; reflexivity]. Qed.

Lemma endswith_app (a b : string) : endswith (a ++ b) b = true.
Proof.
  induction a as [|ch a IH].
  - destruct b; cbn [append endswith]; rewrite String.eqb_refl; reflexivity.
  - cbn [append endswith]. rewrite IH. apply orb_true_r.
Qed.

Lemma dotless_cons (c : ascii) (s : string) :
  dotless (String c s) = true -> Ascii.eqb c dot = false /\ dotless s = true.
Proof.
  unfold dotless. cbn [list_ascii_of_string forallb]. intros H.
  apply andb_true_iff in H. destruct H as [Hc Hs]. split; [|exact Hs].
  destruct (Ascii.eqb c dot); [discriminate | reflexivity].
Qed.

Lemma split_dotless (s : string) : dotless s = true -> split dot s = [s].
Proof.
  induction s as [|c s IH]; intros H; [reflexivity|].
  apply dotless_cons in H. destruct H as [Hc Hs].
  cbn [split]. rewrite Hc, (IH Hs). reflexivity.
Qed.

Lemma split_field (a b : string) :
  dotless a = true -> split dot (a ++ String dot b) = a :: split dot b.
Proof.
  induction a as [|c a IH]; intros H.
  - cbn [append split]. rewrite Ascii.eqb_refl. reflexivity.
  - apply dotless_cons in H. destruct H as [Hc Ha].
    cbn [append split]. rewrite Hc, (IH Ha). reflexivity.
Qed.

Lemma header_written (header srr : bool) (output : string) :
  (let output :=
     if header then write output (join tab HEADER ++ tab ++ "label") else output in
   let output :=
     if srr && header then write output (tab ++ "accession_number") else output in
   if header then write output newline else output) =
  (output ++ header_text header srr)%string.
Proof.
  unfold write, header_text. cbn zeta.
  destruct header, srr; cbn [andb]; rewrite ?append_assoc, ?append_empty_r; reflexivity.
Qed.

Lemma listing_loop_rows (dir : directory) (positions : Z * Z) :
  forall output n,
    forallb (extracts positions) dir = true ->
    listing_loop dir positions output n =
    (Ok (n + Z.of_nat (List.length (filter is_fastq dir))),
     (output ++
      fold_right append EmptyString (map (row positions) (filter is_fastq dir)))%string).
Proof.
  induction dir as [|[filename recs] dir IH]; intros output n H.
  - cbn. rewrite append_empty_r, Z.add_0_r. reflexivity.
  - cbn [forallb] in H. apply andb_true_iff in H. destruct H as [Hx Hrest].
    unfold extracts in Hx. cbn [fst snd] in Hx.
    cbn [listing_loop filter].
    change (is_fastq (filename, recs)) with (endswith filename ".fastq").
    destruct (endswith filename ".fastq") eqn:Hend; [|apply IH; exact Hrest].
    cbn [negb orb] in Hx. cbn [map fold_right List.length]. unfold row at 1. cbn [fst snd].
    destruct (fst (get_file_features recs positions)) as [[features c]|e];
      [|discriminate].
    destruct (split_fastq _ Hend) as (a & b & l & ->). cbn [index nth_error nth].
    rewrite (IH _ _ Hrest). unfold write. rewrite !append_assoc.
    do 2 f_equal. lia.
Qed.

Lemma listing_loop_filter (dir : directory) (positions : Z * Z) :
  forall output n,
    listing_loop dir positions output n =
    listing_loop (filter is_fastq dir) positions output n.
Proof.
  induction dir as [|[filename recs] dir IH]; intros output n; [reflexivity|].
  cbn [listing_loop filter].
  change (is_fastq (filename, recs)) with (endswith filename ".fastq").
  destruct (endswith filename ".fastq") eqn:Hend; [|apply IH].
  cbn [listing_loop]. rewrite Hend.
  destruct (fst (get_file_features recs positions)) as [[features c]|e]; [|reflexivity].
  destruct (index (split dot filename) 1); [|reflexivity].
  destruct (index (split dot filename) 0); [|reflexivity].
  apply IH.
Qed.

(** X7. Entries of the listing whose name does not end in [.fastq] have
    no effect: [get_directory_features] does on a directory what it does on
    the directory without them. *)
Theorem other_files_are_skipped (dir : directory) (positions : Z * Z)
    (header srr : bool) (output : string) :
  get_directory_features dir positions header output srr =
  get_directory_features (filter is_fastq dir) positions header output srr.
Proof. unfold get_directory_features. cbn zeta. apply listing_loop_filter. Qed.


(** X8. When the extraction of every [.fastq] file of the listing returns,
    [get_directory_features] returns the number of these files, and the
    output is the output given, followed by the header text (if asked for)
    and by one row for each of these files, in the order of the listing. *)
Theorem directory_rows_in_listing_order (dir : directory) (positions : Z * Z)
    (header srr : bool) (output : string) :
  forallb (extracts positions) dir = true ->
  get_directory_features dir positions header output srr =
  (Ok (Z.of_nat (List.length (filter is_fastq dir))),
   (output ++ header_text header srr ++
    fold_right append EmptyString (map (row positions) (filter is_fastq dir)))%string).
Proof.
  intros H. unfold get_directory_features.
  rewrite header_written, (listing_loop_rows dir positions _ 0 H), append_assoc.
  reflexivity.
Qed.

(** X9. When the extraction of a [.fastq] file raises an exception and
    the entries before it were got past, [get_directory_features] ends with
    that exception; the output then holds the header text and the rows of
    the files before, and nothing of the file that failed or of the entries
    after it. *)
Theorem directory_stops_at_first_failure
    (before after : directory) (filename : string) (recs : list record)
    (positions : Z * Z) (header srr : bool) (output : string) (e : exn E) :
  forallb (extracts positions) before = true ->
  endswith filename ".fastq" = true ->
  fst (get_file_features recs positions) = Raise e ->
  get_directory_features (before ++ (filename, recs) :: after)
    positions header output srr =
  (Raise e,
   (output ++ header_text header srr ++
    fold_right append EmptyString (map (row positions) (filter is_fastq before)))%string).
Proof.
  intros Hbefore Hend Hfile. unfold get_directory_features.
  rewrite header_written, listing_loop_app, (listing_loop_rows before positions _ 0 Hbefore).
  cbn [listing_loop]. rewrite Hend, Hfile, append_assoc. reflexivity.
Qed.

Lemma get_file_features_raises (recs : list record) (positions : Z * Z) (e : exn E) :
  fst (get_file_features recs positions) = Raise e ->
  e = ZeroDivisionError \/ e = StatisticsError \/ exists h, e = HelperError h.
Proof.
  rewrite get_file_features_contributing.
  destruct (absorb_all initial (contributing positions recs)) as [st|e1] eqn:Ha;
    cbn [bind].
  - pose proof (absorb_all_consistent _ _ _ consistent_initial Ha) as (_ & Hl & _).
    unfold summarize.
    pose proof (qual_avgs_of_cases (qual_array st)) as Hq.
    destruct (qual_avgs_of (qual_array st)) as [qa|e2]; cbn [bind].
    + destruct (lengths st) as [|h t].
      * destruct (avg_avg_phred (qual_array st)); [contradiction | discriminate].
      * pose proof (feature_vector_cases h t qa) as Hv.
        destruct (feature_vector (h :: t) qa); cbn [bind]; [discriminate|].
        intros H; injection H as <-. right; left. apply Hv.
    + intros H; injection H as <-. left. exact Hq.
  - intros H; injection H as <-. right; right.
    unfold contributing in Ha. destruct (normalize positions) as [x y].
    apply (absorb_all_raises _ _ _ (in_window_quality x y recs 0) Ha).
Qed.

Lemma listing_loop_raises (dir : directory) (positions : Z * Z) (e : exn E) :
  forall output n,
    fst (listing_loop dir positions output n) = Raise e ->
    e = ZeroDivisionError \/ e = StatisticsError \/ exists h, e = HelperError h.
Proof.
  induction dir as [|[filename recs] dir IH]; intros output n; cbn [listing_loop].
  - discriminate.
  - destruct (endswith filename ".fastq") eqn:Hend; [|apply IH].
    destruct (fst (get_file_features recs positions)) as [[features c]|e1] eqn:Hf.
    + destruct (split_fastq _ Hend) as (a & b & l & ->). cbn [index nth_error].
      apply IH.
    + cbn [fst]. intros H; injection H as <-.
      apply (get_file_features_raises _ _ _ Hf).
Qed.

(** X10. The only exceptions that leave [get_directory_features] are the
    [ZeroDivisionError] of a file without contributing reads, the
    [StatisticsError] of a file with a single one, and the errors of the
    decoding helpers; in particular the label fields never raise
    [IndexError], since a name ending in [.fastq] has at least two fields. *)
Theorem directory_exceptions (dir : directory) (positions : Z * Z)
    (header srr : bool) (output : string) :
  match fst (get_directory_features dir positions header output srr) with
  | Ok _ | Raise ZeroDivisionError | Raise StatisticsError
  | Raise (HelperError _) => True
  | Raise ValueError | Raise IndexError => False
  end.
Proof.
  unfold get_directory_features. cbn zeta.
  match goal with |- context [listing_loop dir positions ?out ?n] =>
    pose proof (listing_loop_raises dir positions) as H;
    destruct (fst (listing_loop dir positions out n)) as [c|e] eqn:Hl
  end; [exact I|].
  destruct (H e _ _ Hl) as [->|[->|[h ->]]]; exact I.
Qed.

(** X11. For a file named [accession.platform.fastq], where neither field
    contains a dot, whose extraction returns, the row written is the
    feature vector followed by the platform field and then by the accession
    field. *)
Theorem labels_of_conforming_name
    (accession platform : string) (recs : list record) (positions : Z * Z)
    (srr : bool) (output : string) (features : list value) (n : Z) :
  dotless accession = true ->
  dotless platform = true ->
  fst (get_file_features recs positions) = Ok (features, n) ->
  get_directory_features
    [((accession ++ "." ++ platform ++ ".fastq")%string, recs)]
    positions false output srr =
  (Ok 1,
   (output ++
    join tab (map str (features ++ [Str platform; Str accession])) ++ newline)%string).
Proof.
  intros Ha Hp Hf. unfold get_directory_features. rewrite andb_false_r.
  cbn [listing_loop].
  replace (endswith (accession ++ "." ++ platform ++ ".fastq") ".fastq") with true.
  2:{ symmetry.
      rewrite <- (append_assoc accession "." (platform ++ ".fastq")).
      rewrite <- (append_assoc (accession ++ ".") platform ".fastq").
      apply endswith_app. }
  rewrite Hf.
  change (accession ++ "." ++ platform ++ ".fastq")%string
    with (accession ++ String dot (platform ++ String dot "fastq"))%string.
  rewrite (split_field accession _ Ha), (split_field platform _ Hp).
  reflexivity.
Qed.

(** X12. For a file named [stem.fastq] with no dot in the stem, whose
    extraction returns, the platform label written is the extension
    [fastq] itself, and the accession label is the stem. *)
Theorem label_of_name_without_platform
    (stem : string) (recs : list record) (positions : Z * Z)
    (srr : bool) (output : string) (features : list value) (n : Z) :
  dotless stem = true ->
  fst (get_file_features recs positions) = Ok (features, n) ->
  get_directory_features [((stem ++ ".fastq")%string, recs)]
    positions false output srr =
  (Ok 1,
   (output ++
    join tab (map str (features ++ [Str "fastq"; Str stem])) ++ newline)%string).
Proof.
  intros Hs Hf. unfold get_directory_features. rewrite andb_false_r.
  cbn [listing_loop]. rewrite (endswith_app stem ".fastq"), Hf.
  change (stem ++ ".fastq")%string with (stem ++ String dot "fastq")%string.
  rewrite (split_field stem _ Hs). reflexivity.
Qed.

Lemma listing_loop_appends (dir : directory) (positions : Z * Z) :
  forall output n,
    exists written,
      snd (listing_loop dir positions output n) = (output ++ written)%string.
Proof.
  induction dir as [|[filename recs] dir IH]; intros output n; cbn [listing_loop].
  - exists EmptyString. cbn. rewrite append_empty_r. reflexivity.
  - assert (Hstop : forall (e : exn E),
              exists written, snd (@Raise E Z e, output) = (output ++ written)%string).
    { intros e. exists EmptyString. cbn. rewrite append_empty_r. reflexivity. }
    destruct (endswith filename ".fastq"); [|apply IH].
    destruct (fst (get_file_features recs positions)) as [[features c]|e]; [|apply Hstop].
    destruct (index (split dot filename) 1); [|apply Hstop].
    destruct (index (split dot filename) 0); [|apply Hstop].
    match goal with |- context [listing_loop dir positions (write output ?r) ?m] =>
      destruct (IH (write output r) m) as [w Hw]; exists (r ++ w)%string
    end.
    rewrite Hw. unfold write. apply append_assoc.
Qed.

(** X13. [get_directory_features] only appends to its output, whether it
    returns or raises: what the output held before the call is a prefix of
    what it holds after. *)
Theorem output_only_appended (dir : directory) (positions : Z * Z)
    (header srr : bool) (output : string) :
  exists written,
    snd (get_directory_features dir positions header output srr) =
    (output ++ written)%string.
Proof.
  unfold get_directory_features. rewrite header_written.
  destruct (listing_loop_appends dir positions (output ++ header_text header srr) 0)
    as [w Hw].
  exists (header_text header srr ++ w)%string. rewrite Hw. apply append_assoc.
Qed.

End Properties.

(** ** The properties at concrete inputs *)

Example three_reads_statistics :
  match fst (get_file_features (RT := Binary64.runtime) three_reads (1, 3000)) with
  | Ok ([_; Int lo; Int hi; _; _; _; _; _; _], n) => (lo, hi, n) = (8, 10, 2)
  | _ => False
  end.
Proof. vm_compute. reflexivity. Qed.

Example row_ends_with_accession :
  let out :=
    snd (get_directory_features (RT := Binary64.runtime)
           [("SRR111.illumina.fastq"%string, two_reads)] (1, 3000) false "" false) in
  endswith out ("illumina" ++ tab ++ "SRR111" ++ newline) = true.
Proof. vm_compute. reflexivity. Qed.

Lemma window_swap_witness :
  get_file_features (RT := Binary64.runtime) three_reads (3, 1) =
  get_file_features (RT := Binary64.runtime) three_reads (1, 3).
Proof. apply window_swap; lia. Defined.

Lemma single_read_witness :
  fst (get_file_features (RT := Binary64.runtime) three_reads (1, 1)) =
    Raise StatisticsError /\
  closed (snd (get_file_features (RT := Binary64.runtime) three_reads (1, 1))) = true.
Proof.
  eapply (single_read_raises_statistics_error (RT := Binary64.runtime)
            three_reads (1, 1) _ 64).
  - vm_compute. reflexivity.
  - vm_compute. reflexivity.
  - vm_compute. reflexivity.
Defined.

Lemma offset_frozen_witness :
  Binary64.infer_offset "hhhhhh" = inr 64 /\
  fst (get_file_features (RT := Binary64.runtime) mixed_reads (1, 3000)) =
  (st <- decoded_with (RT := Binary64.runtime) 33 mixed_reads ;; summarize st).
Proof.
  split; [reflexivity|].
  eapply (offset_frozen_after_first_read (RT := Binary64.runtime)
            mixed_reads (1, 3000)).
  - vm_compute. reflexivity.
  - vm_compute. reflexivity.
  - discriminate.
Defined.

Lemma empty_window_error_witness :
  fst (get_file_features (RT := Binary64.runtime) unscored_reads (1, 2)) =
    Raise ZeroDivisionError /\
  fst (get_directory_features (RT := Binary64.runtime)
         ([("SRR111.illumina.fastq"%string, two_reads); ("notes.txt"%string, [])] ++
          ("SRR333.pacbio.fastq"%string, unscored_reads) ::
          [("SRR222.pacbio.fastq"%string, three_reads)])
         (1, 2) true "" false) = Raise ZeroDivisionError.
Proof.
  destruct (empty_window_error_propagates (RT := Binary64.runtime)
              unscored_reads (1, 2) eq_refl) as [Hfile Hdir].
  split; [exact Hfile|].
  apply Hdir; vm_compute; reflexivity.
Defined.

(** C3, as stated, fails: on a file none of whose reads has a quality
    string, and on a file whose second read does not decode under the offset
    of the first, [get_file_features] terminates by an exception with the
    reader not closed. *)
Lemma reader_left_open_on_error :
  get_file_features (RT := Binary64.runtime) unscored_reads (1, 3000) =
    (Raise ZeroDivisionError, {| pending := []; consumed := 2; closed := false |}) /\
  get_file_features (RT := Binary64.runtime) misdecoded_reads (1, 3000) =
    (Raise (HelperError "negative Phred score"%string),
     {| pending := []; consumed := 2; closed := false |}).
Proof. split; vm_compute; reflexivity. Qed.

Lemma start_zero_witness :
  get_file_features (RT := Binary64.runtime) three_reads (0, 3000) =
  get_file_features (RT := Binary64.runtime) three_reads (1, 3000).
Proof. apply start_zero_is_start_one. lia. Defined.

Lemma returns_with_two_witness :
  exists features,
    fst (get_file_features (RT := Binary64.runtime) three_reads (1, 3000)) =
      Ok (features,
          Z.of_nat (List.length
                      (contributing (1, 3000) three_reads))) /\
    closed (snd (get_file_features (RT := Binary64.runtime) three_reads (1, 3000))) =
      true.
Proof.
  refine (returns_with_two_decoded_reads (RT := Binary64.runtime)
            three_reads (1, 3000) _ _ _).
  - reflexivity.
  - vm_compute. lia.
Defined.

Lemma directory_rows_witness :
  get_directory_features (RT := Binary64.runtime)
    sample_listing (1, 3000) true "" false =
  (Ok (Z.of_nat (List.length (filter is_fastq sample_listing))),
   ("" ++ header_text true false ++
    fold_right append EmptyString
      (map (row (RT := Binary64.runtime) (1, 3000))
           (filter is_fastq sample_listing)))%string).
Proof.
  refine (directory_rows_in_listing_order (RT := Binary64.runtime)
            sample_listing (1, 3000) true false "" _).
  vm_compute. reflexivity.
Defined.

Lemma directory_stops_witness :
  get_directory_features (RT := Binary64.runtime)
    (sample_listing ++ failing_entry :: sample_listing) (1, 3000) true "" true =
  (Raise (HelperError "negative Phred score"%string),
   ("" ++ header_text true true ++
    fold_right append EmptyString
      (map (row (RT := Binary64.runtime) (1, 3000))
           (filter is_fastq sample_listing)))%string).
Proof.
  refine (directory_stops_at_first_failure (RT := Binary64.runtime)
            sample_listing sample_listing "SRR333.mixed.fastq" misdecoded_reads
            (1, 3000) true true "" (HelperError "negative Phred score"%string)
            _ _ _).
  - vm_compute. reflexivity.
  - vm_compute. reflexivity.
  - reflexivity.
Defined.

Lemma labels_witness :
  exists features n,
    fst (get_file_features (RT := Binary64.runtime) two_reads (1, 3000)) =
      Ok (features, n) /\
    get_directory_features (RT := Binary64.runtime)
      [(("SRR111" ++ "." ++ "illumina" ++ ".fastq")%string, two_reads)]
      (1, 3000) false "" false =
    (Ok 1,
     ("" ++
      join tab (map (str (RT := Binary64.runtime))
                    (features ++ [Str "illumina"; Str "SRR111"])) ++
      newline)%string).
Proof.
  assert (H : { r | fst (get_file_features (RT := Binary64.runtime)
                           two_reads (1, 3000)) = Ok r }).
  { eexists. reflexivity. }
  destruct H as [[features n] H]. exists features, n. split; [exact H|].
  refine (labels_of_conforming_name (RT := Binary64.runtime)
            "SRR111" "illumina" two_reads (1, 3000) false "" features n _ _ H).
  - reflexivity.
  - reflexivity.
Defined.

Lemma label_without_platform_witness :
  exists features n,
    fst (get_file_features (RT := Binary64.runtime) two_reads (1, 3000)) =
      Ok (features, n) /\
    get_directory_features (RT := Binary64.runtime)
      [(("reads" ++ ".fastq")%string, two_reads)] (1, 3000) false "" false =
    (Ok 1,
     ("" ++
      join tab (map (str (RT := Binary64.runtime))
                    (features ++ [Str "fastq"; Str "reads"])) ++
      newline)%string).
Proof.
  assert (H : { r | fst (get_file_features (RT := Binary64.runtime)
                           two_reads (1, 3000)) = Ok r }).
  { eexists. reflexivity. }
  destruct H as [[features n] H]. exists features, n. split; [exact H|].
  refine (label_of_name_without_platform (RT := Binary64.runtime)
            "reads" two_reads (1, 3000) false "" features n _ H).
  reflexivity.
Defined.

(** C7, as stated, fails: on a file whose only read contributes but has a
    quality string that fits no standard offset, [get_file_features] ends
    with the error of the decoding helper, raised inside the loop, and not
    with the [StatisticsError] of [stdev]. *)
Lemma single_undecodable_read_raises_helper_error :
  contributing (1, 3000) undecodable_read = undecodable_read /\
  List.length undecodable_read = 1%nat /\
  get_file_features (RT := Binary64.runtime) undecodable_read (1, 3000) =
    (Raise (HelperError "no standard offset"%string),
     {| pending := []; consumed := 1; closed := false |}) /\
  fst (get_file_features (RT := Binary64.runtime) undecodable_read (1, 3000)) <>
    Raise StatisticsError.
Proof.
  split; [reflexivity|]. split; [reflexivity|].
  assert (H : get_file_features (RT := Binary64.runtime) undecodable_read (1, 3000) =
              (Raise (HelperError "no standard offset"%string),
               {| pending := []; consumed := 1; closed := false |}))
    by reflexivity.
  split; [exact H|]. rewrite H. discriminate.
Qed.
